(** * Voice Translation API (FastAPI backend, [main.py])

    A shallow embedding of the request handlers of [main.py] and the
    properties of its HTTP contract.

    Python values are modelled as follows:
    - [str] is a list of Unicode code points ([pystr]);
    - [bytes] is a list of [Byte.byte];
    - exceptions are an inductive type [exn]; a handler is a computation in
      a state-and-exception monad [M] over the [world] (the module-level
      dictionary, the temporary files on disk, the collaborator calls made
      so far);
    - the external libraries (googletrans, SpeechRecognition, langdetect,
      gTTS) and the failures of local I/O are the fields of an environment
      [Env], over which every statement quantifies. *)

From Stdlib Require Import NArith String Ascii List Bool Lia DecimalString.
From stdpp Require Import base option list gmap.
Import ListNotations.

Set Default Proof Using "Type".
Open Scope N_scope.

(** ** Strings and bytes *)

Definition pystr : Type := list N.
Definition bytes : Type := list Byte.byte.

(** A string literal of the source, as code points. *)
Fixpoint lit (s : string) : pystr :=
  match s with
  | EmptyString => []
  | String a r => N_of_ascii a :: lit r
  end.
Arguments lit : simpl never.

(** [str.isspace] on one code point: the white-space table of CPython
    ([_Py_ascii_whitespace] and [_PyUnicode_IsWhitespace]). *)
Definition isspace (c : N) : bool :=
  ((0x09 <=? c) && (c <=? 0x0D)) || ((0x1C <=? c) && (c <=? 0x20))
  || (c =? 0x85) || (c =? 0xA0) || (c =? 0x1680)
  || ((0x2000 <=? c) && (c <=? 0x200A))
  || (c =? 0x2028) || (c =? 0x2029) || (c =? 0x202F) || (c =? 0x205F)
  || (c =? 0x3000).

Fixpoint lstrip (s : pystr) : pystr :=
  match s with
  | [] => []
  | c :: r => if isspace c then lstrip r else s
  end.

Definition rstrip (s : pystr) : pystr := rev (lstrip (rev s)).

(** [s.strip()] with no argument. *)
Definition strip (s : pystr) : pystr := rstrip (lstrip s).

(** Truth value of a [str]: non-empty. *)
Definition truthy (s : pystr) : bool :=
  match s with [] => false | _ => true end.

(** ** Exceptions *)

(** The subclasses of [Exception] the handlers tell apart, and every other
    one ([OtherException], with its class name and its message). *)
Inductive exn : Type :=
| HTTPException (status_code : N) (detail : pystr)
| UnknownValueError (msg : pystr)
| OtherException (cls : pystr) (msg : pystr).

Inductive result (A : Type) : Type :=
| Ret (a : A)
| Raise (e : exn).
Arguments Ret {A} a.
Arguments Raise {A} e.

(** ** The world outside the handlers *)

(** The [AudioData] object of SpeechRecognition: the decoded samples. *)
Definition AudioData : Type := bytes.

(** A temporary file: the suffix it was created with and its contents.
    Files are keyed by the unique name [tempfile] generated for them. *)
Record file : Type := mkfile { f_suffix : pystr; f_data : bytes }.

(** Calls to the external collaborators, in the order they are made. *)
Inductive event : Type :=
| CallTranslate (text src dest : pystr)
| CallRecognize (audio_data : AudioData) (language : pystr)
| CallDetect (text : pystr)
| CallGTTS (text lang : pystr) (slow : bool)
| CallSave (text lang : pystr) (slow : bool).

Record world : Type := mkworld {
  languages_dict : list (pystr * pystr);
  fs : gmap positive file;
  calls : list event
}.

(** Local I/O steps that may fail. *)
Inductive io_op : Type :=
| OpNamedTemporaryFile | OpUploadRead | OpWrite | OpOpenRead | OpUnlink.

(** Behaviour of the libraries and of the operating system during one
    request. *)
Record Env : Type := mkEnv {
  translator_translate : pystr -> pystr -> pystr -> result pystr;
  sr_record : bytes -> result AudioData;
  recognize_google : AudioData -> pystr -> result pystr;
  detect : pystr -> result pystr;
  gTTS_init : pystr -> pystr -> bool -> option exn;
  gTTS_save : pystr -> pystr -> bool -> result bytes;
  io_error : io_op -> option exn;
  http_exception_str : N -> pystr -> pystr
}.

(** [str(e)]. The text of an [HTTPException] depends on the version of the
    framework and is left to the environment. *)
Definition str_exn (E : Env) (e : exn) : pystr :=
  match e with
  | HTTPException c d => http_exception_str E c d
  | UnknownValueError m => m
  | OtherException _ m => m
  end.

(** ** The monad of handlers *)

Definition M (A : Type) : Type := world -> result A * world.

#[global] Instance M_ret : MRet M := fun A a w => (Ret a, w).

#[global] Instance M_bind : MBind M := fun A B f m w =>
  match m w with
  | (Ret a, w') => f a w'
  | (Raise e, w') => (Raise e, w')
  end.

Definition raise {A : Type} (e : exn) : M A := fun w => (Raise e, w).

(** [try: body except ...: handler]; the handler sees the exception. *)
Definition try_except {A : Type} (body : M A) (handler : exn -> M A) : M A :=
  fun w =>
    match body w with
    | (Ret a, w') => (Ret a, w')
    | (Raise e, w') => handler e w'
    end.

Definition lift_result {A : Type} (r : result A) : M A := fun w => (r, w).

Definition io_check (E : Env) (op : io_op) : M unit :=
  match io_error E op with
  | Some e => raise e
  | None => mret tt
  end.

Definition log (ev : event) : M unit := fun w =>
  (Ret tt, mkworld (languages_dict w) (fs w) (calls w ++ [ev])).

Definition FileNotFoundError : exn :=
  OtherException (lit "FileNotFoundError") (lit "No such file or directory").

(** The name the next temporary file gets: one no file has. *)
Definition next_temp (w : world) : positive := fresh (dom (fs w)).

(** The effect of each I/O step on the files, when the step itself does
    not fail. *)
Definition create_file (suffix : pystr) : M positive := fun w =>
  let p := next_temp w in
  (Ret p, mkworld (languages_dict w) (<[p := mkfile suffix []]> (fs w)) (calls w)).

Definition with_file {A : Type} (p : positive) (k : file -> M A) : M A := fun w =>
  match fs w !! p with
  | Some f => k f w
  | None => (Raise FileNotFoundError, w)
  end.

Definition set_fs (g : gmap positive file -> gmap positive file) : M unit := fun w =>
  (Ret tt, mkworld (languages_dict w) (g (fs w)) (calls w)).

(** [tempfile.NamedTemporaryFile(suffix=..., delete=False)]: a new, empty
    file under a name no existing file has. *)
Definition NamedTemporaryFile (E : Env) (suffix : pystr) : M positive :=
  _ ← io_check E OpNamedTemporaryFile; create_file suffix.

(** [await audio.read()] *)
Definition upload_read (E : Env) (content : bytes) : M bytes :=
  _ ← io_check E OpUploadRead; mret content.

(** [f.write(data)] on the open temporary file. *)
Definition file_write (E : Env) (p : positive) (data : bytes) : M unit :=
  _ ← io_check E OpWrite;
  with_file p (fun f => set_fs <[p := mkfile (f_suffix f) (f_data f ++ data)]>).

(** [open(path, 'rb').read()] *)
Definition open_read (E : Env) (p : positive) : M bytes :=
  _ ← io_check E OpOpenRead; with_file p (fun f => mret (f_data f)).

(** [os.unlink(path)] *)
Definition os_unlink (E : Env) (p : positive) : M unit :=
  _ ← io_check E OpUnlink; with_file p (fun _ => set_fs (delete p)).

(** Calls to the collaborators: the call is recorded, then the library
    answers or raises. *)
Definition call_translate (E : Env) (text src dest : pystr) : M pystr :=
  _ ← log (CallTranslate text src dest);
  lift_result (translator_translate E text src dest).

Definition call_recognize_google (E : Env) (a : AudioData) (language : pystr) : M pystr :=
  _ ← log (CallRecognize a language);
  lift_result (recognize_google E a language).

Definition call_detect (E : Env) (text : pystr) : M pystr :=
  _ ← log (CallDetect text);
  lift_result (detect E text).

(** [gTTS(text=..., lang=..., slow=...)]: the constructor checks its
    arguments and may raise. *)
Definition call_gTTS (E : Env) (text lang : pystr) (slow : bool) : M unit :=
  _ ← log (CallGTTS text lang slow);
  match gTTS_init E text lang slow with
  | Some e => raise e
  | None => mret tt
  end.

(** [tts.save(path)]: opens the file for writing, which empties it, then
    writes the synthesized audio. *)
Definition call_save (E : Env) (text lang : pystr) (slow : bool) (p : positive) : M unit :=
  _ ← log (CallSave text lang slow);
  with_file p (fun f =>
    _ ← set_fs <[p := mkfile (f_suffix f) []]>;
    data ← lift_result (gTTS_save E text lang slow);
    set_fs <[p := mkfile (f_suffix f) data]>).

(** [sr.AudioFile(path)] and [recognizer.record(source)] *)
Definition AudioFile_record (E : Env) (p : positive) : M AudioData :=
  with_file p (fun f => lift_result (sr_record E (f_data f))).

(** ** [base64.b64encode(...).decode('utf-8')] *)

Definition b64_alphabet : pystr :=
  lit "ABCDEFGHIJKLMNOPQRSTUVWXYZabcdefghijklmnopqrstuvwxyz0123456789+/".

Definition b64_char (i : N) : N := nth (N.to_nat i) b64_alphabet 0.

Fixpoint b64_groups (l : list N) : pystr :=
  match l with
  | [] => []
  | [a] =>
      [b64_char (N.shiftr a 2); b64_char (N.shiftl (N.land a 3) 4); 61; 61]
  | [a; b] =>
      [b64_char (N.shiftr a 2);
       b64_char (N.lor (N.shiftl (N.land a 3) 4) (N.shiftr b 4));
       b64_char (N.shiftl (N.land b 15) 2); 61]
  | a :: b :: c :: r =>
      b64_char (N.shiftr a 2)
      :: b64_char (N.lor (N.shiftl (N.land a 3) 4) (N.shiftr b 4))
      :: b64_char (N.lor (N.shiftl (N.land b 15) 2) (N.shiftr c 6))
      :: b64_char (N.land c 63)
      :: b64_groups r
  end.

Definition b64encode (data : bytes) : pystr := b64_groups (map Byte.to_N data).

(** ** Request and response models *)

Module TranslationRequest.
Record t : Type := mk { text : pystr; source_lang : pystr; target_lang : pystr }.
End TranslationRequest.

Module TranslationResponse.
Record t : Type := mk {
  translated_text : pystr;
  original_text : pystr;
  source_lang : pystr;
  target_lang : pystr;
  status : pystr
}.
End TranslationResponse.

Module TTSRequest.
Record t : Type := mk { text : pystr; target_lang : pystr }.
End TTSRequest.

Module TTSResponse.
Record t : Type := mk { audio_data : pystr; target_lang : pystr; status : pystr }.
End TTSResponse.

Module SpeechRecognitionResponse.
Record t : Type := mk {
  recognized_text : pystr;
  source_lang : pystr;
  detected_lang : option pystr;
  status : pystr
}.
End SpeechRecognitionResponse.

(** ** The catalog *)

(** 22 official Indian languages with Google Translate codes. *)
Definition indian_languages : list (pystr * pystr) :=
  [ (lit "Assamese", lit "as");
    (lit "Bengali", lit "bn");
    (lit "Bodo", lit "brx");
    (lit "Dogri", lit "doi");
    (lit "Gujarati", lit "gu");
    (lit "Hindi", lit "hi");
    (lit "Kannada", lit "kn");
    (lit "Kashmiri", lit "ks");
    (lit "Konkani", lit "kok");
    (lit "Maithili", lit "mai");
    (lit "Malayalam", lit "ml");
    (lit "Manipuri", lit "mni");
    (lit "Marathi", lit "mr");
    (lit "Nepali", lit "ne");
    (lit "Odia", lit "or");
    (lit "Punjabi", lit "pa");
    (lit "Sanskrit", lit "sa");
    (lit "Santali", lit "sat");
    (lit "Sindhi", lit "sd");
    (lit "Tamil", lit "ta");
    (lit "Telugu", lit "te");
    (lit "Urdu", lit "ur") ].

(** The state of the process when the module has been loaded. *)
Definition init_world : world := mkworld indian_languages ∅ [].

(** ** The handlers *)

(** The body of the [try] of [translate_text]. *)
Definition translate_text_try (E : Env) (request : TranslationRequest.t)
  : M TranslationResponse.t :=
  let text := strip (TranslationRequest.text request) in
  _ ← (if truthy text then mret tt
       else raise (HTTPException 400 (lit "Text is required")));
  translated ← call_translate E text
                 (TranslationRequest.source_lang request)
                 (TranslationRequest.target_lang request);
  mret (TranslationResponse.mk translated text
          (TranslationRequest.source_lang request)
          (TranslationRequest.target_lang request)
          (lit "success")).

Definition translate_text (E : Env) (request : TranslationRequest.t)
  : M TranslationResponse.t :=
  try_except (translate_text_try E request)
    (fun e => raise (HTTPException 500 (lit "Translation failed: " ++ str_exn E e))).

(** The body of the [try] of [speech_to_text]. *)
Definition speech_to_text_try (E : Env) (audio : bytes) (source_lang : pystr)
  : M SpeechRecognitionResponse.t :=
  temp_audio_path ← NamedTemporaryFile E (lit ".wav");
  content ← upload_read E audio;
  _ ← file_write E temp_audio_path content;
  audio_data ← AudioFile_record E temp_audio_path;
  text ← call_recognize_google E audio_data (source_lang ++ lit "-IN");
  detected_lang ← (if truthy text then d ← call_detect E text; mret (Some d)
                   else mret None);
  _ ← os_unlink E temp_audio_path;
  mret (SpeechRecognitionResponse.mk text source_lang detected_lang (lit "success")).

Definition speech_to_text (E : Env) (audio : bytes) (source_lang : pystr)
  : M SpeechRecognitionResponse.t :=
  try_except (speech_to_text_try E audio source_lang)
    (fun e =>
       match e with
       | UnknownValueError _ =>
           raise (HTTPException 400 (lit "Could not understand the speech"))
       | _ =>
           raise (HTTPException 500 (lit "Speech recognition failed: " ++ str_exn E e))
       end).

(** The body of the [try] of [text_to_speech]. *)
Definition text_to_speech_try (E : Env) (request : TTSRequest.t) : M TTSResponse.t :=
  let text := strip (TTSRequest.text request) in
  _ ← (if truthy text then mret tt
       else raise (HTTPException 400 (lit "Text is required")));
  _ ← call_gTTS E text (TTSRequest.target_lang request) false;
  temp_audio_path ← NamedTemporaryFile E (lit ".mp3");
  _ ← call_save E text (TTSRequest.target_lang request) false temp_audio_path;
  audio_data ← open_read E temp_audio_path;
  let audio_base64 := b64encode audio_data in
  _ ← os_unlink E temp_audio_path;
  mret (TTSResponse.mk audio_base64 (TTSRequest.target_lang request) (lit "success")).

Definition text_to_speech (E : Env) (request : TTSRequest.t) : M TTSResponse.t :=
  try_except (text_to_speech_try E request)
    (fun e => raise (HTTPException 500 (lit "Text-to-speech failed: " ++ str_exn E e))).

(** ** JSON bodies and the framework *)

#[warnings="-register-all"]
Inductive json : Type :=
| JNull
| JStr (s : pystr)
| JObj (fields : list (pystr * json)).

Fixpoint assoc {A : Type} (k : pystr) (l : list (pystr * A)) : option A :=
  match l with
  | [] => None
  | (k', v) :: r => if decide (k = k') then Some v else assoc k r
  end.

(** The value of a field of a JSON object. *)
Definition field (k : string) (j : json) : option json :=
  match j with
  | JObj fields => assoc (lit k) fields
  | _ => None
  end.

Definition root : M json :=
  mret (JObj [ (lit "message", JStr (lit "Voice Translation FastAPI Backend"));
               (lit "status", JStr (lit "running"));
               (lit "endpoints",
                 JObj [ (lit "translate", JStr (lit "/api/translate"));
                        (lit "speech_to_text", JStr (lit "/api/speech-to-text"));
                        (lit "text_to_speech", JStr (lit "/api/text-to-speech"));
                        (lit "languages", JStr (lit "/api/languages"));
                        (lit "health", JStr (lit "/health")) ]) ]).

Definition get_languages : M json := fun w =>
  (Ret (JObj [ (lit "languages",
                 JObj (map (fun kv => (fst kv, JStr (snd kv))) (languages_dict w)));
               (lit "status", JStr (lit "success")) ]), w).

Definition health_check : M json :=
  mret (JObj [ (lit "status", JStr (lit "FastAPI Voice Translation service is running"));
               (lit "message", JStr (lit "All systems operational")) ]).

(** Serialization of the response models. *)
Definition json_of_TranslationResponse (r : TranslationResponse.t) : json :=
  JObj [ (lit "translated_text", JStr (TranslationResponse.translated_text r));
         (lit "original_text", JStr (TranslationResponse.original_text r));
         (lit "source_lang", JStr (TranslationResponse.source_lang r));
         (lit "target_lang", JStr (TranslationResponse.target_lang r));
         (lit "status", JStr (TranslationResponse.status r)) ].

Definition json_of_SpeechRecognitionResponse (r : SpeechRecognitionResponse.t) : json :=
  JObj [ (lit "recognized_text", JStr (SpeechRecognitionResponse.recognized_text r));
         (lit "source_lang", JStr (SpeechRecognitionResponse.source_lang r));
         (lit "detected_lang",
           match SpeechRecognitionResponse.detected_lang r with
           | Some d => JStr d
           | None => JNull
           end);
         (lit "status", JStr (SpeechRecognitionResponse.status r)) ].

Definition json_of_TTSResponse (r : TTSResponse.t) : json :=
  JObj [ (lit "audio_data", JStr (TTSResponse.audio_data r));
         (lit "target_lang", JStr (TTSResponse.target_lang r));
         (lit "status", JStr (TTSResponse.status r)) ].

Record response : Type := mkresponse { status_code : N; body : json }.

(** What the framework sends for the outcome of a handler: 200 and the
    returned value, or the status and the [detail] of an [HTTPException];
    any other exception is an internal server error. *)
Definition respond {A : Type} (to_json : A -> json) (r : result A) : response :=
  match r with
  | Ret a => mkresponse 200 (to_json a)
  | Raise (HTTPException c d) => mkresponse c (JObj [ (lit "detail", JStr d) ])
  | Raise _ => mkresponse 500 (JStr (lit "Internal Server Error"))
  end.

Definition endpoint {A : Type} (to_json : A -> json) (h : M A) (w : world)
  : response * world :=
  (respond to_json (fst (h w)), snd (h w)).

Inductive request : Type :=
| GET_root
| GET_health
| GET_api_languages
| POST_api_translate (r : TranslationRequest.t)
| POST_api_speech_to_text (audio : bytes) (source_lang : pystr)
| POST_api_text_to_speech (r : TTSRequest.t).

(** The routes of [app]. *)
Definition app (E : Env) (rq : request) : world -> response * world :=
  match rq with
  | GET_root => endpoint id root
  | GET_health => endpoint id health_check
  | GET_api_languages => endpoint id get_languages
  | POST_api_translate r => endpoint json_of_TranslationResponse (translate_text E r)
  | POST_api_speech_to_text audio source_lang =>
      endpoint json_of_SpeechRecognitionResponse (speech_to_text E audio source_lang)
  | POST_api_text_to_speech r => endpoint json_of_TTSResponse (text_to_speech E r)
  end.

(** A sequence of requests, each with the behaviour of the outside world
    while it is served. *)
Fixpoint serve (rqs : list (Env * request)) (w : world) : list response * world :=
  match rqs with
  | [] => ([], w)
  | (E, rq) :: rest =>
      let (resp, w') := app E rq w in
      let (resps, w'') := serve rest w' in
      (resp :: resps, w'')
  end.

Definition is_2xx (c : N) : bool := (200 <=? c) && (c <? 300).

(** The collaborator calls made between two states of the world. *)
Definition new_calls (w w' : world) : list event :=
  drop (length (calls w)) (calls w').

(** The uploaded bytes reach the disk and are decoded into [a]. *)
Definition audio_loaded (E : Env) (audio : bytes) (a : AudioData) : Prop :=
  io_error E OpNamedTemporaryFile = None
  /\ io_error E OpUploadRead = None
  /\ io_error E OpWrite = None
  /\ sr_record E audio = Ret a.

Definition detail_body (d : pystr) : json := JObj [ (lit "detail", JStr d) ].

(** A response is well formed when it is either a 200 whose body has the
    status "success", or a 400 or 500 whose body is a detail and nothing
    else. *)
Inductive well_formed : response -> Prop :=
| wf_success (b : json) :
    field "status" b = Some (JStr (lit "success")) ->
    well_formed (mkresponse 200 b)
| wf_error (c : N) (d : pystr) :
    c = 400 \/ c = 500 ->
    well_formed (mkresponse c (detail_body d)).

(** A computation that leaves the module-level dictionary alone. *)
Definition keeps_dict {A : Type} (m : M A) : Prop :=
  forall w, languages_dict (snd (m w)) = languages_dict w.

(** The [/api/...] routes, as opposed to the two informational ones. *)
Definition is_api (rq : request) : bool :=
  match rq with
  | GET_root | GET_health => false
  | _ => true
  end.

(** ** Sample environments *)

(** [str(HTTPException(...))] as recent versions of the framework define
    it: the status code, a colon, the detail. *)
Definition starlette_str (c : N) (d : pystr) : pystr :=
  lit (DecimalString.NilEmpty.string_of_uint (N.to_uint c)) ++ lit ": " ++ d.

(** Every collaborator answers: the translator returns its input, the
    recognizer hears "namaste", the detector says "hi", the synthesizer
    writes three bytes. *)
Definition env_ok : Env :=
  mkEnv (fun text _ _ => Ret text)
        (fun data => Ret data)
        (fun _ _ => Ret (lit "namaste"))
        (fun _ => Ret (lit "hi"))
        (fun _ _ _ => None)
        (fun _ _ _ => Ret [Byte.x49; Byte.x44; Byte.x33])
        (fun _ => None)
        starlette_str.

Definition with_recognize_google (E : Env) (f : AudioData -> pystr -> result pystr) : Env :=
  mkEnv (translator_translate E) (sr_record E) f (detect E)
        (gTTS_init E) (gTTS_save E) (io_error E) (http_exception_str E).

Definition with_detect (E : Env) (f : pystr -> result pystr) : Env :=
  mkEnv (translator_translate E) (sr_record E) (recognize_google E) f
        (gTTS_init E) (gTTS_save E) (io_error E) (http_exception_str E).

Definition with_gTTS_save (E : Env) (f : pystr -> pystr -> bool -> result bytes) : Env :=
  mkEnv (translator_translate E) (sr_record E) (recognize_google E) (detect E)
        (gTTS_init E) f (io_error E) (http_exception_str E).

(** The recording is silence: the recognizer understands nothing. *)
Definition env_silence : Env :=
  with_recognize_google env_ok (fun _ _ => Raise (UnknownValueError [])).

(** The recognition service cannot be reached. *)
Definition env_offline : Env :=
  with_recognize_google env_ok
    (fun _ _ => Raise (OtherException (lit "RequestError") (lit "recognition connection failed"))).

(** The recognizer hears digits only, in which the detector finds no
    language. *)
Definition env_digits : Env :=
  with_detect (with_recognize_google env_ok (fun _ _ => Ret (lit "123")))
    (fun _ => Raise (OtherException (lit "LangDetectException") (lit "No features in text."))).

(** The synthesis service refuses the request. *)
Definition env_tts_down : Env :=
  with_gTTS_save env_ok
    (fun _ _ _ => Raise (OtherException (lit "gTTSError") (lit "Failed to connect"))).

(** ** Outcomes *)

(** The result of a handler as the environment alone decides it, without
    the world: used to show that the files and the earlier calls have no
    part in the answer. *)
Definition after_io {A : Type} (E : Env) (op : io_op) (k : result A) : result A :=
  match io_error E op with
  | Some e => Raise e
  | None => k
  end.

Definition speech_to_text_outcome (E : Env) (audio : bytes) (s : pystr)
  : result SpeechRecognitionResponse.t :=
  after_io E OpNamedTemporaryFile
    (after_io E OpUploadRead
       (after_io E OpWrite
          match sr_record E audio with
          | Raise e => Raise e
          | Ret a =>
              match recognize_google E a (s ++ lit "-IN") with
              | Raise e => Raise e
              | Ret text =>
                  match (if truthy text
                         then match detect E text with
                              | Ret d => Ret (Some d)
                              | Raise e => Raise e
                              end
                         else Ret None) with
                  | Raise e => Raise e
                  | Ret d =>
                      after_io E OpUnlink
                        (Ret (SpeechRecognitionResponse.mk text s d (lit "success")))
                  end
              end
          end)).

Definition text_to_speech_outcome (E : Env) (r : TTSRequest.t) : result TTSResponse.t :=
  let text := strip (TTSRequest.text r) in
  if truthy text then
    match gTTS_init E text (TTSRequest.target_lang r) false with
    | Some e => Raise e
    | None =>
        after_io E OpNamedTemporaryFile
          match gTTS_save E text (TTSRequest.target_lang r) false with
          | Raise e => Raise e
          | Ret data =>
              after_io E OpOpenRead
                (after_io E OpUnlink
                   (Ret (TTSResponse.mk (b64encode data) (TTSRequest.target_lang r)
                           (lit "success"))))
          end
    end
  else Raise (HTTPException 400 (lit "Text is required")).

(** A world with a file left behind by a failed recognition and a call
    already on record. *)
Definition world_after_silence : world :=
  snd (app env_silence (POST_api_speech_to_text [Byte.x00] (lit "hi")) init_world).

(** The routes that work on a temporary file. *)
Definition uses_temp_file (rq : request) : bool :=
  match rq with
  | POST_api_speech_to_text _ _ | POST_api_text_to_speech _ => true
  | _ => false
  end.

(** The collaborators of each route: the translator for [/api/translate],
    the recognizer and the detector for [/api/speech-to-text], the
    synthesizer for [/api/text-to-speech], none for the other routes. *)
Definition own_collaborator (rq : request) (ev : event) : bool :=
  match rq, ev with
  | POST_api_translate _, CallTranslate _ _ _ => true
  | POST_api_speech_to_text _ _, (CallRecognize _ _ | CallDetect _) => true
  | POST_api_text_to_speech _, (CallGTTS _ _ _ | CallSave _ _ _) => true
  | _, _ => false
  end.

(** ** Reading base64 back *)

(** The inverse of [b64_groups], as the client of the API applies it to
    [audio_data]: four characters give three bytes, two or one before
    the padding. It serves to show that the encoding loses nothing. *)
Fixpoint b64_index_from (alphabet : pystr) (c : N) (i : N) : N :=
  match alphabet with
  | [] => 0
  | a :: rest => if a =? c then i else b64_index_from rest c (i + 1)
  end.

Definition b64_index (c : N) : N := b64_index_from b64_alphabet c 0.

Fixpoint b64_ungroups (s : pystr) : list N :=
  match s with
  | c1 :: c2 :: c3 :: c4 :: rest =>
      let b1 := N.lor (N.shiftl (b64_index c1) 2) (N.shiftr (b64_index c2) 4) in
      let b2 := N.lor (N.shiftl (N.land (b64_index c2) 15) 4) (N.shiftr (b64_index c3) 2) in
      let b3 := N.lor (N.shiftl (N.land (b64_index c3) 3) 6) (b64_index c4) in
      if c3 =? 61 then [b1]
      else if c4 =? 61 then [b1; b2]
      else b1 :: b2 :: b3 :: b64_ungroups rest
  | _ => []
  end.

(** The numbers 0 to 255. *)
Definition byte_values : list N := map N.of_nat (seq 0 256).

(** A request whose upload is stored and decoded and whose recognition
    then fails. *)
Definition fails_at_recognition (er : Env * request) : Prop :=
  match snd er with
  | POST_api_speech_to_text audio s =>
      exists a e, audio_loaded (fst er) audio a
                  /\ recognize_google (fst er) a (s ++ lit "-IN") = Raise e
  | _ => False
  end.

Definition with_sr_record (E : Env) (f : bytes -> result AudioData) : Env :=
  mkEnv (translator_translate E) f (recognize_google E) (detect E)
        (gTTS_init E) (gTTS_save E) (io_error E) (http_exception_str E).

Definition with_io_error (E : Env) (f : io_op -> option exn) : Env :=
  mkEnv (translator_translate E) (sr_record E) (recognize_google E) (detect E)
        (gTTS_init E) (gTTS_save E) f (http_exception_str E).

(** The upload is not an audio file the decoder can read. *)
Definition env_not_audio : Env :=
  with_sr_record env_ok
    (fun _ => Raise (OtherException (lit "ValueError")
                       (lit "Audio file could not be read as PCM WAV, AIFF/AIFF-C, or Native FLAC"))).

(** The disk is full: the upload cannot be written. *)
Definition env_disk_full : Env :=
  with_io_error env_ok
    (fun op => match op with
               | OpWrite => Some (OtherException (lit "OSError") (lit "No space left on device"))
               | _ => None
               end).

(** The temporary file cannot be unlinked. *)
Definition env_no_unlink : Env :=
  with_io_error env_ok
    (fun op => match op with
               | OpUnlink => Some (OtherException (lit "PermissionError") (lit "Permission denied"))
               | _ => None
               end).

(** What the two [except] clauses of [speech_to_text] raise for the
    exception [e] of the [try]. *)
Definition speech_to_text_except (E : Env) (e : exn) : exn :=
  match e with
  | UnknownValueError _ => HTTPException 400 (lit "Could not understand the speech")
  | _ => HTTPException 500 (lit "Speech recognition failed: " ++ str_exn E e)
  end.

(** The answer 500 of [/api/speech-to-text] to the failure [e]. *)
Definition recognition_failed (E : Env) (e : exn) : response :=
  mkresponse 500 (detail_body (lit "Speech recognition failed: " ++ str_exn E e)).

(** * Properties *)

(** ** Trimming *)

Lemma lstrip_nil_iff (s : pystr) : lstrip s = [] <-> forallb isspace s = true.
Proof.
  induction s as [|c r IH]; simpl; [tauto|].
  destruct (isspace c); simpl; [exact IH|]. split; discriminate.
Qed.

Lemma lstrip_head (s : pystr) (c : N) (r : pystr) :
  lstrip s = c :: r -> isspace c = false.
Proof.
  induction s as [|a t IH]; simpl; [discriminate|].
  destruct (isspace a) eqn:Ha; [exact IH|]. intros [= <- _]. exact Ha.
Qed.

Lemma forallb_rev {A : Type} (f : A -> bool) (l : list A) :
  forallb f (rev l) = forallb f l.
Proof.
  induction l as [|a l IH]; simpl; [reflexivity|].
  rewrite forallb_app, IH. simpl. rewrite andb_true_r. apply andb_comm.
Qed.

(** The trimmed text is empty exactly when the text is empty or made of
    white space only. *)
Lemma strip_nil_iff (s : pystr) : strip s = [] <-> forallb isspace s = true.
Proof.
  unfold strip, rstrip. split.
  - intros H. apply lstrip_nil_iff.
    assert (Hr : lstrip (rev (lstrip s)) = []).
    { rewrite <- (rev_involutive (lstrip (rev (lstrip s)))), H. reflexivity. }
    apply lstrip_nil_iff in Hr. rewrite forallb_rev in Hr.
    destruct (lstrip s) as [|c r] eqn:Hs; [reflexivity|].
    apply lstrip_head in Hs. simpl in Hr. rewrite Hs in Hr. discriminate.
  - intros H. apply lstrip_nil_iff in H. rewrite H. reflexivity.
Qed.

Lemma truthy_false (s : pystr) : truthy s = false <-> s = [].
Proof. destruct s; simpl; split; congruence. Qed.

Lemma truthy_true (s : pystr) : truthy s = true <-> s <> [].
Proof. destruct s; simpl; split; congruence. Qed.

(** ** Unfolding the monad *)

Ltac unfold_handlers :=
  unfold app, endpoint, translate_text, translate_text_try, speech_to_text,
    speech_to_text_try, text_to_speech, text_to_speech_try, try_except,
    NamedTemporaryFile, upload_read, file_write, open_read, os_unlink,
    AudioFile_record, call_translate, call_recognize_google, call_detect,
    call_gTTS, call_save, io_check, with_file, set_fs, create_file, log,
    lift_result, raise, mbind, M_bind, mret, M_ret in *.

(** ** Empty text *)

Section EmptyText.
Variables (E : Env) (w : world).

Lemma translate_text_empty (r : TranslationRequest.t) :
  strip (TranslationRequest.text r) = [] ->
  translate_text E r w =
    (Raise (HTTPException 500
       (lit "Translation failed: " ++ http_exception_str E 400 (lit "Text is required"))), w).
Proof. intros H. unfold_handlers. rewrite H. reflexivity. Qed.

Lemma text_to_speech_empty (r : TTSRequest.t) :
  strip (TTSRequest.text r) = [] ->
  text_to_speech E r w =
    (Raise (HTTPException 500
       (lit "Text-to-speech failed: " ++ http_exception_str E 400 (lit "Text is required"))), w).
Proof. intros H. unfold_handlers. rewrite H. reflexivity. Qed.

End EmptyText.

(** C1. The specification asks for status 400 and the detail "Text is required"
    when the text is empty or white space only. The handlers do raise that
    exception, but inside their own [try], whose [except Exception] clause
    catches it: for every such request both [/api/translate] and
    [/api/text-to-speech] answer with status 500, and the detail is the
    failure prefix of the endpoint followed by the text of the caught
    exception. *)
Theorem empty_text_is_answered_500 (E : Env) (w : world) :
  (forall r : TranslationRequest.t,
      forallb isspace (TranslationRequest.text r) = true ->
      fst (app E (POST_api_translate r) w) =
        mkresponse 500
          (detail_body (lit "Translation failed: "
                        ++ http_exception_str E 400 (lit "Text is required"))))
  /\ (forall r : TTSRequest.t,
      forallb isspace (TTSRequest.text r) = true ->
      fst (app E (POST_api_text_to_speech r) w) =
        mkresponse 500
          (detail_body (lit "Text-to-speech failed: "
                        ++ http_exception_str E 400 (lit "Text is required")))).
Proof.
  split; intros r H; apply strip_nil_iff in H; simpl; unfold endpoint.
  - rewrite (translate_text_empty E w r H). reflexivity.
  - rewrite (text_to_speech_empty E w r H). reflexivity.
Qed.

(** The scenario of the specification (an empty text, from "en" to "hi"),
    and a text of blanks sent to the synthesizer. *)
Lemma empty_text_is_answered_500_witness :
  fst (app env_ok
         (POST_api_translate (TranslationRequest.mk [] (lit "en") (lit "hi")))
         init_world)
    = mkresponse 500 (detail_body (lit "Translation failed: 400: Text is required"))
  /\ fst (app env_ok
            (POST_api_text_to_speech (TTSRequest.mk (lit "   ") (lit "hi")))
            init_world)
    = mkresponse 500 (detail_body (lit "Text-to-speech failed: 400: Text is required")).
Proof.
  split.
  - exact (proj1 (empty_text_is_answered_500 env_ok init_world)
             (TranslationRequest.mk [] (lit "en") (lit "hi")) eq_refl).
  - exact (proj2 (empty_text_is_answered_500 env_ok init_world)
             (TTSRequest.mk (lit "   ") (lit "hi")) eq_refl).
Defined.

(** C10. A request to [/api/translate] or [/api/text-to-speech] whose text
    is empty after trimming is rejected (the status is not 2xx) and leaves
    the world as it found it: no collaborator call is recorded, no file is
    created, the catalog is untouched. *)
Theorem empty_text_rejected_without_effect (E : Env) (w : world) :
  (forall r : TranslationRequest.t,
      strip (TranslationRequest.text r) = [] ->
      is_2xx (status_code (fst (app E (POST_api_translate r) w))) = false
      /\ snd (app E (POST_api_translate r) w) = w)
  /\ (forall r : TTSRequest.t,
      strip (TTSRequest.text r) = [] ->
      is_2xx (status_code (fst (app E (POST_api_text_to_speech r) w))) = false
      /\ snd (app E (POST_api_text_to_speech r) w) = w).
Proof.
  split; intros r H; simpl; unfold endpoint.
  - rewrite (translate_text_empty E w r H). split; reflexivity.
  - rewrite (text_to_speech_empty E w r H). split; reflexivity.
Qed.

Lemma empty_text_rejected_without_effect_witness :
  snd (app env_ok
         (POST_api_translate (TranslationRequest.mk (lit " ") (lit "en") (lit "hi")))
         init_world) = init_world
  /\ snd (app env_ok
            (POST_api_text_to_speech (TTSRequest.mk [] (lit "ta")))
            init_world) = init_world.
Proof.
  split.
  - exact (proj2 (proj1 (empty_text_rejected_without_effect env_ok init_world)
             (TranslationRequest.mk (lit " ") (lit "en") (lit "hi")) eq_refl)).
  - exact (proj2 (proj2 (empty_text_rejected_without_effect env_ok init_world)
             (TTSRequest.mk [] (lit "ta")) eq_refl)).
Defined.

(** ** Translation *)

(** What [translate_text] does with a text that is not empty after
    trimming: one call to the translator, whose answer decides the
    outcome. *)
Lemma translate_text_nonempty (E : Env) (w : world) (r : TranslationRequest.t) :
  strip (TranslationRequest.text r) <> [] ->
  translate_text E r w =
    (match translator_translate E (strip (TranslationRequest.text r))
             (TranslationRequest.source_lang r) (TranslationRequest.target_lang r) with
     | Ret translated =>
         Ret (TranslationResponse.mk translated (strip (TranslationRequest.text r))
                (TranslationRequest.source_lang r) (TranslationRequest.target_lang r)
                (lit "success"))
     | Raise e =>
         Raise (HTTPException 500 (lit "Translation failed: " ++ str_exn E e))
     end,
     mkworld (languages_dict w) (fs w)
       (calls w ++ [CallTranslate (strip (TranslationRequest.text r))
                      (TranslationRequest.source_lang r)
                      (TranslationRequest.target_lang r)])).
Proof.
  intros H. apply truthy_true in H. unfold_handlers. rewrite H. simpl.
  destruct (translator_translate E _ _ _); reflexivity.
Qed.

(** C9. When the trimmed text is not empty, [/api/translate] calls the
    translator exactly once, with the trimmed text and with the source and
    target codes of the request as they came, whatever they are; nothing
    but the translator's answer decides the outcome. *)
Theorem translation_codes_passed_through
  (E : Env) (w : world) (r : TranslationRequest.t) :
  strip (TranslationRequest.text r) <> [] ->
  calls (snd (translate_text E r w)) =
    calls w ++ [CallTranslate (strip (TranslationRequest.text r))
                  (TranslationRequest.source_lang r)
                  (TranslationRequest.target_lang r)]
  /\ fst (translate_text E r w) =
       match translator_translate E (strip (TranslationRequest.text r))
               (TranslationRequest.source_lang r) (TranslationRequest.target_lang r) with
       | Ret translated =>
           Ret (TranslationResponse.mk translated (strip (TranslationRequest.text r))
                  (TranslationRequest.source_lang r) (TranslationRequest.target_lang r)
                  (lit "success"))
       | Raise e =>
           Raise (HTTPException 500 (lit "Translation failed: " ++ str_exn E e))
       end.
Proof.
  intros H. rewrite (translate_text_nonempty E w r H). split; reflexivity.
Qed.

(** Codes that are not in the catalog reach the translator all the same. *)
Lemma translation_codes_passed_through_witness :
  calls (snd (translate_text env_ok
                (TranslationRequest.mk (lit "Hello") (lit "xx") (lit "tlh")) init_world))
    = [CallTranslate (lit "Hello") (lit "xx") (lit "tlh")]
  /\ ~ In (lit "xx") (map snd indian_languages)
  /\ ~ In (lit "tlh") (map snd indian_languages).
Proof.
  split; [|split].
  - exact (proj1 (translation_codes_passed_through env_ok init_world
             (TranslationRequest.mk (lit "Hello") (lit "xx") (lit "tlh"))
             ltac:(discriminate))).
  - intros H. vm_compute in H. intuition discriminate.
  - intros H. vm_compute in H. intuition discriminate.
Defined.

(** C3, as stated, fails: the text " Hello " translated from "en" to "en"
    is answered successfully, but [original_text] is "Hello", without the
    surrounding blanks. *)
Lemma original_text_not_verbatim :
  ~ (forall (E : Env) (w : world) (r : TranslationRequest.t),
        TranslationRequest.text r <> [] ->
        TranslationRequest.source_lang r = TranslationRequest.target_lang r ->
        is_2xx (status_code (fst (app E (POST_api_translate r) w))) = true ->
        field "status" (body (fst (app E (POST_api_translate r) w)))
          = Some (JStr (lit "success"))
        /\ field "original_text" (body (fst (app E (POST_api_translate r) w)))
          = Some (JStr (TranslationRequest.text r))).
Proof.
  intros H.
  destruct (H env_ok init_world
              (TranslationRequest.mk (lit " Hello ") (lit "en") (lit "en"))
              ltac:(discriminate) eq_refl eq_refl) as [_ Hecho].
  vm_compute in Hecho. discriminate Hecho.
Qed.

(** C3, amended. For every non-empty text, a successful response from
    [/api/translate] with identical source and target codes has status
    "success", and its [original_text] is the text of the request with the
    surrounding white space trimmed. *)
Theorem original_text_is_trimmed_text
  (E : Env) (w : world) (r : TranslationRequest.t) :
  TranslationRequest.text r <> [] ->
  TranslationRequest.source_lang r = TranslationRequest.target_lang r ->
  is_2xx (status_code (fst (app E (POST_api_translate r) w))) = true ->
  field "status" (body (fst (app E (POST_api_translate r) w)))
    = Some (JStr (lit "success"))
  /\ field "original_text" (body (fst (app E (POST_api_translate r) w)))
    = Some (JStr (strip (TranslationRequest.text r))).
Proof.
  intros _ _. simpl. unfold endpoint.
  destruct (strip (TranslationRequest.text r)) as [|c s] eqn:Hs.
  - rewrite (translate_text_empty E w r Hs). discriminate.
  - rewrite (translate_text_nonempty E w r) by (rewrite Hs; discriminate).
    rewrite Hs. destruct (translator_translate E _ _ _); simpl.
    + intros _. split; reflexivity.
    + discriminate.
Qed.

Lemma original_text_is_trimmed_text_witness :
  field "original_text"
    (body (fst (app env_ok
                  (POST_api_translate
                     (TranslationRequest.mk (lit " Hello ") (lit "en") (lit "en")))
                  init_world)))
    = Some (JStr (lit "Hello")).
Proof.
  exact (proj2 (original_text_is_trimmed_text env_ok init_world
                  (TranslationRequest.mk (lit " Hello ") (lit "en") (lit "en"))
                  ltac:(discriminate) eq_refl eq_refl)).
Defined.

(** ** Temporary files *)

Lemma next_temp_fresh (w : world) : fs w !! next_temp w = None.
Proof. unfold next_temp. apply not_elem_of_dom. apply is_fresh. Qed.

Ltac step_cases :=
  repeat (case_match; simplify_map_eq; simpl in *; try congruence).

(** A successful call to [/api/speech-to-text] leaves the files as they
    were: the temporary file has been created and unlinked. *)
Lemma speech_to_text_success_cleans
  (E : Env) (w : world) (audio : bytes) (s : pystr) :
  status_code (fst (app E (POST_api_speech_to_text audio s) w)) = 200 ->
  fs (snd (app E (POST_api_speech_to_text audio s) w)) = fs w.
Proof.
  pose proof (next_temp_fresh w) as Hp.
  simpl. unfold_handlers. step_cases.
  all: intros _; rewrite delete_insert_eq, delete_insert_eq; by apply delete_id.
Qed.

(** C2. The specification asks that the temporary file be gone on every
    exit path.
    The handlers unlink it at the end of the [try] only: once the file has
    been created, every call to [/api/speech-to-text] that is not answered
    200 leaves it on disk, under the name it was given, and so does every
    such call to [/api/text-to-speech]. *)
Theorem failure_leaves_temporary_file (E : Env) (w : world) :
  io_error E OpNamedTemporaryFile = None ->
  (forall (audio : bytes) (s : pystr),
      status_code (fst (app E (POST_api_speech_to_text audio s) w)) <> 200 ->
      fs w !! next_temp w = None
      /\ exists data,
          fs (snd (app E (POST_api_speech_to_text audio s) w))
            = <[next_temp w := mkfile (lit ".wav") data]> (fs w))
  /\ (forall r : TTSRequest.t,
      strip (TTSRequest.text r) <> [] ->
      gTTS_init E (strip (TTSRequest.text r)) (TTSRequest.target_lang r) false = None ->
      status_code (fst (app E (POST_api_text_to_speech r) w)) <> 200 ->
      fs w !! next_temp w = None
      /\ exists data,
          fs (snd (app E (POST_api_text_to_speech r) w))
            = <[next_temp w := mkfile (lit ".mp3") data]> (fs w)).
Proof.
  intros Hcreate. split.
  - intros audio s H. split; [apply next_temp_fresh|]. revert H.
    simpl. unfold_handlers. rewrite Hcreate. simpl. step_cases.
    all: try (eexists; reflexivity).
    all: eexists; rewrite insert_insert_eq; reflexivity.
  - intros r Htext Hinit H. split; [apply next_temp_fresh|]. revert H.
    apply truthy_true in Htext.
    simpl. unfold_handlers. rewrite Htext. simpl.
    rewrite Hinit, Hcreate. simpl. step_cases.
    all: try (eexists; reflexivity).
    all: eexists; rewrite ?insert_insert_eq; reflexivity.
Qed.

(** A recording of silence sent to [/api/speech-to-text], and a text the
    synthesis service refuses: file 1 is still there afterwards. *)
Lemma failure_leaves_temporary_file_witness :
  (exists data,
      fs (snd (app env_silence
                 (POST_api_speech_to_text [Byte.x00; Byte.x00] (lit "hi")) init_world))
        = <[next_temp init_world := mkfile (lit ".wav") data]> (fs init_world))
  /\ (exists data,
      fs (snd (app env_tts_down
                 (POST_api_text_to_speech (TTSRequest.mk (lit "Hello") (lit "hi")))
                 init_world))
        = <[next_temp init_world := mkfile (lit ".mp3") data]> (fs init_world)).
Proof.
  split.
  - exact (proj2 (proj1 (failure_leaves_temporary_file env_silence init_world eq_refl)
             [Byte.x00; Byte.x00] (lit "hi") ltac:(vm_compute; discriminate))).
  - exact (proj2 (proj2 (failure_leaves_temporary_file env_tts_down init_world eq_refl)
             (TTSRequest.mk (lit "Hello") (lit "hi"))
             ltac:(vm_compute; discriminate) eq_refl ltac:(vm_compute; discriminate))).
Defined.

(** ** Speech recognition *)

Section SpeechToText.
Variables (E : Env) (w : world) (audio : bytes) (source_lang : pystr).

(** Up to the answer of the recognizer: the file is written, the recognizer
    has been called with the hint. *)
Lemma speech_to_text_try_recognize_raises (a : AudioData) (e : exn) :
  audio_loaded E audio a ->
  recognize_google E a (source_lang ++ lit "-IN") = Raise e ->
  speech_to_text_try E audio source_lang w =
    (Raise e,
     mkworld (languages_dict w)
       (<[next_temp w := mkfile (lit ".wav") audio]> (fs w))
       (calls w ++ [CallRecognize a (source_lang ++ lit "-IN")])).
Proof.
  intros (H1 & H2 & H3 & H4) H5. unfold_handlers.
  rewrite H1, H2, H3. simpl. rewrite lookup_insert_eq. simpl.
  rewrite lookup_insert_eq. simpl. rewrite H4, H5, insert_insert_eq. reflexivity.
Qed.

Lemma speech_to_text_try_detect_raises (a : AudioData) (text : pystr) (e : exn) :
  audio_loaded E audio a ->
  recognize_google E a (source_lang ++ lit "-IN") = Ret text ->
  text <> [] ->
  detect E text = Raise e ->
  speech_to_text_try E audio source_lang w =
    (Raise e,
     mkworld (languages_dict w)
       (<[next_temp w := mkfile (lit ".wav") audio]> (fs w))
       ((calls w ++ [CallRecognize a (source_lang ++ lit "-IN")]) ++ [CallDetect text])).
Proof.
  intros (H1 & H2 & H3 & H4) H5 H6 H7. apply truthy_true in H6. unfold_handlers.
  rewrite H1, H2, H3. simpl. rewrite lookup_insert_eq. simpl.
  rewrite lookup_insert_eq. simpl. rewrite H4, H5, H6. simpl.
  rewrite H7, insert_insert_eq. reflexivity.
Qed.

(** How the two [except] clauses answer what the [try] raised. *)
Lemma speech_to_text_raised (e : exn) (w' : world) :
  speech_to_text_try E audio source_lang w = (Raise e, w') ->
  speech_to_text E audio source_lang w =
    (Raise (match e with
            | UnknownValueError _ =>
                HTTPException 400 (lit "Could not understand the speech")
            | _ =>
                HTTPException 500 (lit "Speech recognition failed: " ++ str_exn E e)
            end), w').
Proof.
  intros H. unfold speech_to_text, try_except. rewrite H. destruct e; reflexivity.
Qed.

Lemma speech_to_text_returned (r : SpeechRecognitionResponse.t) (w' : world) :
  speech_to_text_try E audio source_lang w = (Ret r, w') ->
  speech_to_text E audio source_lang w = (Ret r, w').
Proof. intros H. unfold speech_to_text, try_except. rewrite H. reflexivity. Qed.

End SpeechToText.

(** The result of the [try], and of the handler, as the environment
    decides it. *)
Lemma speech_to_text_try_outcome (E : Env) (w : world) (audio : bytes) (s : pystr) :
  fst (speech_to_text_try E audio s w) = speech_to_text_outcome E audio s.
Proof.
  unfold speech_to_text_outcome, after_io. unfold_handlers.
  destruct (io_error E OpNamedTemporaryFile); [reflexivity|]. simpl.
  destruct (io_error E OpUploadRead); [reflexivity|]. simpl.
  destruct (io_error E OpWrite); [reflexivity|]. simpl.
  rewrite lookup_insert_eq. simpl. rewrite lookup_insert_eq. simpl.
  destruct (sr_record E audio) as [a|e]; [|reflexivity].
  destruct (recognize_google E a (s ++ lit "-IN")) as [text|e]; [|reflexivity].
  destruct (truthy text); simpl.
  - destruct (detect E text) as [d|e]; [|reflexivity]. simpl.
    destruct (io_error E OpUnlink); [reflexivity|]. simpl.
    rewrite lookup_insert_eq. reflexivity.
  - destruct (io_error E OpUnlink); [reflexivity|]. simpl.
    rewrite lookup_insert_eq. reflexivity.
Qed.

Lemma speech_to_text_fst (E : Env) (w : world) (audio : bytes) (s : pystr) :
  fst (speech_to_text E audio s w) =
    match speech_to_text_outcome E audio s with
    | Ret r => Ret r
    | Raise (UnknownValueError _) =>
        Raise (HTTPException 400 (lit "Could not understand the speech"))
    | Raise e =>
        Raise (HTTPException 500 (lit "Speech recognition failed: " ++ str_exn E e))
    end.
Proof.
  rewrite <- (speech_to_text_try_outcome E w).
  destruct (speech_to_text_try E audio s w) as [[r|e] w1] eqn:Htry; simpl.
  - rewrite (speech_to_text_returned E w audio s r w1 Htry). reflexivity.
  - rewrite (speech_to_text_raised E w audio s e w1 Htry). destruct e; reflexivity.
Qed.

(** The [except] clauses raise and do nothing else: the world a handler
    leaves is the one its [try] left. *)
Lemma speech_to_text_snd (E : Env) (w : world) (audio : bytes) (s : pystr) :
  snd (speech_to_text E audio s w) = snd (speech_to_text_try E audio s w).
Proof.
  unfold speech_to_text, try_except.
  destruct (speech_to_text_try E audio s w) as [[r|e] w1]; [reflexivity|].
  destruct e; reflexivity.
Qed.

Lemma new_calls_app (w w' : world) (evs : list event) :
  calls w' = calls w ++ evs -> new_calls w w' = evs.
Proof. intros H. unfold new_calls. rewrite H. apply drop_app_length. Qed.

Ltac trace_done :=
  simpl; rewrite <- ?app_assoc; simpl;
  first [ reflexivity | symmetry; apply app_nil_r ].

(** The calls of the [try] of [speech_to_text], in full. *)
Lemma speech_to_text_try_trace (E : Env) (w : world) (audio : bytes) (s : pystr) :
  calls (snd (speech_to_text_try E audio s w)) =
    calls w ++
    match io_error E OpNamedTemporaryFile, io_error E OpUploadRead,
          io_error E OpWrite, sr_record E audio with
    | None, None, None, Ret a =>
        CallRecognize a (s ++ lit "-IN")
        :: match recognize_google E a (s ++ lit "-IN") with
           | Ret text => if truthy text then [CallDetect text] else []
           | Raise _ => []
           end
    | _, _, _, _ => []
    end.
Proof.
  unfold_handlers.
  destruct (io_error E OpNamedTemporaryFile); simpl; [trace_done|].
  destruct (io_error E OpUploadRead); simpl; [trace_done|].
  destruct (io_error E OpWrite); simpl; [trace_done|].
  rewrite lookup_insert_eq. simpl. rewrite lookup_insert_eq. simpl.
  destruct (sr_record E audio) as [a|e]; simpl; [|trace_done].
  destruct (recognize_google E a (s ++ lit "-IN")) as [text|e]; simpl; [|trace_done].
  destruct (truthy text); simpl.
  - destruct (detect E text) as [d|e]; simpl; [|trace_done].
    destruct (io_error E OpUnlink); simpl; [trace_done|].
    rewrite lookup_insert_eq. trace_done.
  - destruct (io_error E OpUnlink); simpl; [trace_done|].
    rewrite lookup_insert_eq. trace_done.
Qed.

(** C5. When the recognizer, called on the decoded upload, cannot decode
    any speech ([UnknownValueError]), [/api/speech-to-text] answers 400
    ("Could not understand the speech"). Any other failure, of whichever
    step fails first (creating the temporary file, reading the upload,
    writing it, decoding it, recognizing, detecting the language, unlinking
    the file), is answered 500, and the detail is "Speech recognition
    failed: " followed by the text of that failure. *)
Theorem speech_to_text_error_status
  (E : Env) (w : world) (audio : bytes) (s : pystr) :
  (forall (a : AudioData) (m : pystr),
      audio_loaded E audio a ->
      recognize_google E a (s ++ lit "-IN") = Raise (UnknownValueError m) ->
      fst (app E (POST_api_speech_to_text audio s) w)
        = mkresponse 400 (detail_body (lit "Could not understand the speech")))
  /\ (forall e : exn,
      (forall m, e <> UnknownValueError m) ->
      (io_error E OpNamedTemporaryFile = Some e ->
       fst (app E (POST_api_speech_to_text audio s) w) = recognition_failed E e)
      /\ (io_error E OpNamedTemporaryFile = None ->
          io_error E OpUploadRead = Some e ->
          fst (app E (POST_api_speech_to_text audio s) w) = recognition_failed E e)
      /\ (io_error E OpNamedTemporaryFile = None ->
          io_error E OpUploadRead = None ->
          io_error E OpWrite = Some e ->
          fst (app E (POST_api_speech_to_text audio s) w) = recognition_failed E e)
      /\ (io_error E OpNamedTemporaryFile = None ->
          io_error E OpUploadRead = None ->
          io_error E OpWrite = None ->
          sr_record E audio = Raise e ->
          fst (app E (POST_api_speech_to_text audio s) w) = recognition_failed E e)
      /\ (forall a,
          audio_loaded E audio a ->
          recognize_google E a (s ++ lit "-IN") = Raise e ->
          fst (app E (POST_api_speech_to_text audio s) w) = recognition_failed E e)
      /\ (forall a text,
          audio_loaded E audio a ->
          recognize_google E a (s ++ lit "-IN") = Ret text ->
          text <> [] ->
          detect E text = Raise e ->
          fst (app E (POST_api_speech_to_text audio s) w) = recognition_failed E e)
      /\ (forall a text,
          audio_loaded E audio a ->
          recognize_google E a (s ++ lit "-IN") = Ret text ->
          text = [] \/ (exists l, detect E text = Ret l) ->
          io_error E OpUnlink = Some e ->
          fst (app E (POST_api_speech_to_text audio s) w) = recognition_failed E e))
  /\ (forall (e : exn) (w' : world),
      speech_to_text_try E audio s w = (Raise e, w') ->
      (forall m, e <> UnknownValueError m) ->
      fst (app E (POST_api_speech_to_text audio s) w) = recognition_failed E e).
Proof.
  assert (Hfail : forall e, (forall m, e <> UnknownValueError m) ->
                            respond json_of_SpeechRecognitionResponse
                              (Raise (speech_to_text_except E e))
                            = recognition_failed E e).
  { intros [c d|m|c m] Hne; [reflexivity| |reflexivity]. exfalso. exact (Hne m eq_refl). }
  assert (Hans : fst (app E (POST_api_speech_to_text audio s) w)
                 = respond json_of_SpeechRecognitionResponse
                     match speech_to_text_outcome E audio s with
                     | Ret r => Ret r
                     | Raise e => Raise (speech_to_text_except E e)
                     end).
  { simpl. unfold endpoint. simpl. rewrite speech_to_text_fst.
    destruct (speech_to_text_outcome E audio s) as [r|[c d|m|c m]]; reflexivity. }
  rewrite Hans. split; [|split].
  - unfold speech_to_text_outcome, after_io, audio_loaded.
    intros a m (-> & -> & -> & ->) ->. reflexivity.
  - unfold speech_to_text_outcome, after_io, audio_loaded.
    intros e Hne. repeat split.
    + intros ->. exact (Hfail e Hne).
    + intros -> ->. exact (Hfail e Hne).
    + intros -> -> ->. exact (Hfail e Hne).
    + intros -> -> -> ->. exact (Hfail e Hne).
    + intros a (-> & -> & -> & ->) ->. exact (Hfail e Hne).
    + intros a text (-> & -> & -> & ->) -> Htext ->.
      apply truthy_true in Htext. rewrite Htext. exact (Hfail e Hne).
    + intros a text (-> & -> & -> & ->) -> Hdet ->.
      destruct (truthy text) eqn:Ht.
      * destruct Hdet as [-> | [l ->]]; [discriminate Ht|]. exact (Hfail e Hne).
      * exact (Hfail e Hne).
  - intros e w' Htry Hne. rewrite <- (speech_to_text_try_outcome E w), Htry.
    exact (Hfail e Hne).
Qed.

(** Silence is answered 400. An unreachable recognition service, a full
    disk, an upload that is not audio, a detector that finds no language
    and a file that cannot be unlinked are each answered 500 with the
    description of the failure. *)
Lemma speech_to_text_error_status_witness :
  fst (app env_silence (POST_api_speech_to_text [Byte.x00] (lit "hi")) init_world)
    = mkresponse 400 (detail_body (lit "Could not understand the speech"))
  /\ fst (app env_offline (POST_api_speech_to_text [Byte.x00] (lit "hi")) init_world)
    = mkresponse 500
        (detail_body (lit "Speech recognition failed: recognition connection failed"))
  /\ fst (app env_disk_full (POST_api_speech_to_text [Byte.x00] (lit "hi")) init_world)
    = mkresponse 500
        (detail_body (lit "Speech recognition failed: No space left on device"))
  /\ fst (app env_not_audio (POST_api_speech_to_text [Byte.x00] (lit "hi")) init_world)
    = mkresponse 500
        (detail_body (lit "Speech recognition failed: Audio file could not be read as PCM WAV, AIFF/AIFF-C, or Native FLAC"))
  /\ fst (app env_digits (POST_api_speech_to_text [Byte.x00] (lit "hi")) init_world)
    = mkresponse 500 (detail_body (lit "Speech recognition failed: No features in text."))
  /\ fst (app env_no_unlink (POST_api_speech_to_text [Byte.x00] (lit "hi")) init_world)
    = mkresponse 500 (detail_body (lit "Speech recognition failed: Permission denied")).
Proof.
  assert (Hne : forall c m' m, OtherException c m' <> UnknownValueError m)
    by (intros c m' m; discriminate).
  split; [|split; [|split; [|split; [|split]]]].
  - exact (proj1 (speech_to_text_error_status env_silence init_world [Byte.x00] (lit "hi"))
             [Byte.x00] [] ltac:(repeat split) eq_refl).
  - exact (proj1 (proj2 (proj2 (proj2 (proj2
             (proj1 (proj2 (speech_to_text_error_status env_offline init_world
                              [Byte.x00] (lit "hi"))) _ (Hne _ _))))))
             [Byte.x00] ltac:(repeat split) eq_refl).
  - exact (proj1 (proj2 (proj2
             (proj1 (proj2 (speech_to_text_error_status env_disk_full init_world
                              [Byte.x00] (lit "hi"))) _ (Hne _ _))))
             eq_refl eq_refl eq_refl).
  - exact (proj1 (proj2 (proj2 (proj2
             (proj1 (proj2 (speech_to_text_error_status env_not_audio init_world
                              [Byte.x00] (lit "hi"))) _ (Hne _ _)))))
             eq_refl eq_refl eq_refl eq_refl).
  - exact (proj1 (proj2 (proj2 (proj2 (proj2 (proj2
             (proj1 (proj2 (speech_to_text_error_status env_digits init_world
                              [Byte.x00] (lit "hi"))) _ (Hne _ _)))))))
             [Byte.x00] (lit "123") ltac:(repeat split) eq_refl
             ltac:(discriminate) eq_refl).
  - exact (proj2 (proj2 (proj2 (proj2 (proj2 (proj2
             (proj1 (proj2 (speech_to_text_error_status env_no_unlink init_world
                              [Byte.x00] (lit "hi"))) _ (Hne _ _)))))))
             [Byte.x00] (lit "namaste") ltac:(repeat split) eq_refl
             (or_intror (ex_intro _ (lit "hi") eq_refl)) eq_refl).
Defined.

(** C7, as stated, fails: not every call reaches the recognizer. When the
    upload is not an audio file the decoder raises first, and no
    recognition is requested, with the hint or without. *)
Lemma recognizer_not_always_invoked :
  ~ (forall (E : Env) (w : world) (audio : bytes) (s : pystr),
        exists a,
          In (CallRecognize a (s ++ lit "-IN"))
             (new_calls w (snd (app E (POST_api_speech_to_text audio s) w)))).
Proof.
  intros H.
  destruct (H env_not_audio init_world [Byte.x00] (lit "hi")) as [a Hin].
  vm_compute in Hin. exact Hin.
Qed.

(** C7, amended. For every call to [/api/speech-to-text] with source
    language [s] whose upload has been written to the temporary file and
    decoded, the recognizer is called exactly once, before any other
    collaborator, on the decoded audio and with the language hint
    [s ++ "-IN"], and what it answers to that call decides the outcome:
    its failure is the failure of the call, its text is the text that is
    detected on and returned. When the upload cannot be stored or decoded
    the recognizer is not called. No recognition is ever requested with
    another hint. *)
Theorem recognition_language_hint
  (E : Env) (w : world) (audio : bytes) (s : pystr) :
  (forall a,
      audio_loaded E audio a ->
      new_calls w (snd (app E (POST_api_speech_to_text audio s) w))
        = CallRecognize a (s ++ lit "-IN")
          :: match recognize_google E a (s ++ lit "-IN") with
             | Ret text => if truthy text then [CallDetect text] else []
             | Raise _ => []
             end
      /\ fst (speech_to_text E audio s w)
        = match recognize_google E a (s ++ lit "-IN") with
          | Raise e => Raise (speech_to_text_except E e)
          | Ret text =>
              match (if truthy text
                     then match detect E text with
                          | Ret d => Ret (Some d)
                          | Raise e => Raise e
                          end
                     else Ret None) with
              | Raise e => Raise (speech_to_text_except E e)
              | Ret d =>
                  match io_error E OpUnlink with
                  | Some e => Raise (speech_to_text_except E e)
                  | None =>
                      Ret (SpeechRecognitionResponse.mk text s d (lit "success"))
                  end
              end
          end)
  /\ ((forall a, ~ audio_loaded E audio a) ->
      new_calls w (snd (app E (POST_api_speech_to_text audio s) w)) = [])
  /\ (forall a l,
      In (CallRecognize a l)
         (new_calls w (snd (app E (POST_api_speech_to_text audio s) w))) ->
      l = s ++ lit "-IN").
Proof.
  assert (Hcalls :
            new_calls w (snd (app E (POST_api_speech_to_text audio s) w))
            = match io_error E OpNamedTemporaryFile, io_error E OpUploadRead,
                    io_error E OpWrite, sr_record E audio with
              | None, None, None, Ret a =>
                  CallRecognize a (s ++ lit "-IN")
                  :: match recognize_google E a (s ++ lit "-IN") with
                     | Ret text => if truthy text then [CallDetect text] else []
                     | Raise _ => []
                     end
              | _, _, _, _ => []
              end).
  { apply new_calls_app. simpl. rewrite speech_to_text_snd.
    apply speech_to_text_try_trace. }
  rewrite Hcalls. unfold audio_loaded. split; [|split].
  - intros a (H1 & H2 & H3 & H4). rewrite H1, H2, H3, H4. split; [reflexivity|].
    rewrite speech_to_text_fst. unfold speech_to_text_outcome, after_io.
    rewrite H1, H2, H3, H4.
    destruct (recognize_google E a (s ++ lit "-IN")) as [text|e];
      [|destruct e; reflexivity].
    destruct (truthy text).
    + destruct (detect E text) as [d|e]; [|destruct e; reflexivity].
      destruct (io_error E OpUnlink) as [e|]; [destruct e|]; reflexivity.
    + destruct (io_error E OpUnlink) as [e|]; [destruct e|]; reflexivity.
  - intros Hnone.
    destruct (io_error E OpNamedTemporaryFile); [reflexivity|].
    destruct (io_error E OpUploadRead); [reflexivity|].
    destruct (io_error E OpWrite); [reflexivity|].
    destruct (sr_record E audio) as [a|e]; [|reflexivity].
    exfalso. apply (Hnone a). auto.
  - intros a l.
    destruct (io_error E OpNamedTemporaryFile); [intros []|].
    destruct (io_error E OpUploadRead); [intros []|].
    destruct (io_error E OpWrite); [intros []|].
    destruct (sr_record E audio) as [a0|e]; [|intros []].
    intros [[= _ <-] | Hin]; [reflexivity|].
    destruct (recognize_google E a0 (s ++ lit "-IN")) as [text|e]; [|destruct Hin].
    destruct (truthy text); [|destruct Hin].
    destruct Hin as [[=] | []].
Qed.

Lemma recognition_language_hint_witness :
  new_calls init_world
    (snd (app env_ok (POST_api_speech_to_text [Byte.x52] (lit "ta")) init_world))
    = [CallRecognize [Byte.x52] (lit "ta-IN"); CallDetect (lit "namaste")]
  /\ fst (speech_to_text env_offline [Byte.x52] (lit "ta") init_world)
    = Raise (HTTPException 500
               (lit "Speech recognition failed: recognition connection failed")).
Proof.
  split.
  - exact (proj1 (proj1 (recognition_language_hint env_ok init_world [Byte.x52] (lit "ta"))
                    [Byte.x52] ltac:(repeat split))).
  - exact (proj2 (proj1 (recognition_language_hint env_offline init_world
                           [Byte.x52] (lit "ta"))
                    [Byte.x52] ltac:(repeat split))).
Defined.

(** ** Language detection *)

(** C8, as stated, fails. Were a failure of detection without effect on
    the outcome, every call whose recognition succeeds (and whose file
    operations do) would succeed, with the detector's answer, or [None], as
    [detected_lang]. When the recognizer hears "123" and the detector finds
    no language in it, the call is answered 500. *)
Lemma detection_failure_fails_request :
  ~ (forall (E : Env) (w : world) (audio : bytes) (s : pystr)
            (a : AudioData) (text : pystr),
        (forall op, io_error E op = None) ->
        sr_record E audio = Ret a ->
        recognize_google E a (s ++ lit "-IN") = Ret text ->
        exists r w',
          speech_to_text E audio s w = (Ret r, w')
          /\ SpeechRecognitionResponse.detected_lang r =
               if truthy text
               then match detect E text with Ret d => Some d | Raise _ => None end
               else None).
Proof.
  intros H.
  destruct (H env_digits init_world [Byte.x00] (lit "hi") [Byte.x00] (lit "123")
              (fun _ => eq_refl) eq_refl eq_refl) as (r & w' & Hr & _).
  vm_compute in Hr. discriminate Hr.
Qed.

(** C8, amended. For every successful call to [/api/speech-to-text],
    [detected_lang] is the answer of the detector on the recognized text
    when that text is not empty, and [None] when it is empty. A failure of
    the detector on a non-empty recognized text is not absorbed: the call
    is then answered with an error status. *)
Theorem detected_lang_of_success
  (E : Env) (w : world) (audio : bytes) (s : pystr) :
  (forall (r : SpeechRecognitionResponse.t) (w' : world),
      speech_to_text E audio s w = (Ret r, w') ->
      if truthy (SpeechRecognitionResponse.recognized_text r)
      then exists d,
          detect E (SpeechRecognitionResponse.recognized_text r) = Ret d
          /\ SpeechRecognitionResponse.detected_lang r = Some d
      else SpeechRecognitionResponse.detected_lang r = None)
  /\ (forall (a : AudioData) (text : pystr) (e : exn),
      audio_loaded E audio a ->
      recognize_google E a (s ++ lit "-IN") = Ret text ->
      text <> [] ->
      detect E text = Raise e ->
      is_2xx (status_code (fst (app E (POST_api_speech_to_text audio s) w))) = false).
Proof.
  split.
  - intros r w'. unfold_handlers. step_cases.
    all: intros [= <- _]; simpl in *; try congruence; eauto.
  - intros a text e Hload Hrec Htext Hdet. simpl. unfold endpoint.
    rewrite (speech_to_text_raised E w audio s _ _
               (speech_to_text_try_detect_raises E w audio s a text e
                  Hload Hrec Htext Hdet)).
    destruct e; reflexivity.
Qed.

Lemma detected_lang_of_success_witness :
  is_2xx (status_code
            (fst (app env_digits (POST_api_speech_to_text [Byte.x00] (lit "hi"))
                    init_world))) = false.
Proof.
  exact (proj2 (detected_lang_of_success env_digits init_world [Byte.x00] (lit "hi"))
           [Byte.x00] (lit "123") _ ltac:(repeat split) eq_refl
           ltac:(discriminate) eq_refl).
Defined.

(** ** The envelope *)

Lemma speech_to_text_try_status (E : Env) (w w' : world) (audio : bytes) (s : pystr)
  (r : SpeechRecognitionResponse.t) :
  speech_to_text_try E audio s w = (Ret r, w') ->
  SpeechRecognitionResponse.status r = lit "success".
Proof. unfold_handlers. step_cases. all: intros [= <- _]; reflexivity. Qed.

Lemma text_to_speech_try_status (E : Env) (w w' : world) (rq : TTSRequest.t)
  (r : TTSResponse.t) :
  text_to_speech_try E rq w = (Ret r, w') ->
  TTSResponse.status r = lit "success".
Proof. unfold_handlers. step_cases. all: intros [= <- _]; reflexivity. Qed.

Lemma translate_text_well_formed (E : Env) (w : world) (r : TranslationRequest.t) :
  well_formed (fst (app E (POST_api_translate r) w)).
Proof.
  simpl. unfold endpoint.
  destruct (strip (TranslationRequest.text r)) as [|c s] eqn:Hs.
  - rewrite (translate_text_empty E w r Hs). apply wf_error. auto.
  - rewrite (translate_text_nonempty E w r) by (rewrite Hs; discriminate).
    destruct (translator_translate E _ _ _); simpl.
    + apply wf_success. reflexivity.
    + apply wf_error. auto.
Qed.

Lemma speech_to_text_well_formed (E : Env) (w : world) (audio : bytes) (s : pystr) :
  well_formed (fst (app E (POST_api_speech_to_text audio s) w)).
Proof.
  simpl. unfold endpoint.
  destruct (speech_to_text_try E audio s w) as [[r|e] w'] eqn:Htry.
  - rewrite (speech_to_text_returned E w audio s r w' Htry). simpl.
    apply wf_success. destruct r as [t l d st].
    apply speech_to_text_try_status in Htry. simpl in Htry. subst st. reflexivity.
  - rewrite (speech_to_text_raised E w audio s e w' Htry).
    destruct e; apply wf_error; auto.
Qed.

Lemma text_to_speech_well_formed (E : Env) (w : world) (r : TTSRequest.t) :
  well_formed (fst (app E (POST_api_text_to_speech r) w)).
Proof.
  simpl. unfold endpoint, text_to_speech, try_except.
  destruct (text_to_speech_try E r w) as [[t|e] w'] eqn:Htry; simpl.
  - apply wf_success. destruct t as [a l st].
    apply text_to_speech_try_status in Htry. simpl in Htry. subst st. reflexivity.
  - apply wf_error. auto.
Qed.

(** C4, as stated, fails: [/health] is answered 200, and the status field
    of its body is a sentence about the service, not "success". *)
Lemma health_status_is_not_success :
  ~ (forall (E : Env) (rq : request) (w : world),
        (field "status" (body (fst (app E rq w))) = Some (JStr (lit "success"))
         <-> is_2xx (status_code (fst (app E rq w))) = true)
        /\ (is_2xx (status_code (fst (app E rq w))) = false ->
            exists d, body (fst (app E rq w)) = detail_body d)).
Proof.
  intros H. destruct (H env_ok GET_health init_world) as [[_ Hst] _].
  specialize (Hst eq_refl). vm_compute in Hst. discriminate Hst.
Qed.

(** C4, amended. For every request to one of the four [/api/...]
    endpoints, the body has a status field equal to "success" if and only
    if the status code is 2xx; and when the status code is not 2xx the body
    is the envelope [{detail: message}] and nothing else. *)
Theorem api_status_success_iff_2xx (E : Env) (rq : request) (w : world) :
  is_api rq = true ->
  (field "status" (body (fst (app E rq w))) = Some (JStr (lit "success"))
   <-> is_2xx (status_code (fst (app E rq w))) = true)
  /\ (is_2xx (status_code (fst (app E rq w))) = false ->
      exists d, body (fst (app E rq w)) = detail_body d).
Proof.
  intros Hapi.
  assert (Hwf : well_formed (fst (app E rq w))).
  { destruct rq; try discriminate Hapi.
    - apply wf_success. reflexivity.
    - apply translate_text_well_formed.
    - apply speech_to_text_well_formed.
    - apply text_to_speech_well_formed. }
  destruct Hwf as [b Hb | c d [-> | ->]]; simpl.
  - split; [tauto | discriminate].
  - split; [split; discriminate | eauto].
  - split; [split; discriminate | eauto].
Qed.

Lemma api_status_success_iff_2xx_witness :
  exists d,
    body (fst (app env_tts_down
                 (POST_api_text_to_speech (TTSRequest.mk (lit "Hello") (lit "hi")))
                 init_world)) = detail_body d.
Proof.
  exact (proj2 (api_status_success_iff_2xx env_tts_down
                  (POST_api_text_to_speech (TTSRequest.mk (lit "Hello") (lit "hi")))
                  init_world eq_refl) eq_refl).
Defined.

(** ** The catalog *)

Section KeepsDict.
Context {A B : Type}.

Lemma keeps_ret (a : A) : keeps_dict (mret a : M A).
Proof. intros w. reflexivity. Qed.

Lemma keeps_raise (e : exn) : keeps_dict (raise e : M A).
Proof. intros w. reflexivity. Qed.

Lemma keeps_lift (r : result A) : keeps_dict (lift_result r).
Proof. intros w. reflexivity. Qed.

Lemma keeps_bind (m : M A) (f : A -> M B) :
  keeps_dict m -> (forall a, keeps_dict (f a)) -> keeps_dict (m ≫= f).
Proof.
  intros Hm Hf w. unfold mbind, M_bind. specialize (Hm w).
  destruct (m w) as [[a|e] w1]; simpl in *; [|exact Hm].
  rewrite (Hf a w1). exact Hm.
Qed.

Lemma keeps_try_except (m : M A) (h : exn -> M A) :
  keeps_dict m -> (forall e, keeps_dict (h e)) -> keeps_dict (try_except m h).
Proof.
  intros Hm Hh w. unfold try_except. specialize (Hm w).
  destruct (m w) as [[a|e] w1]; simpl in *; [exact Hm|].
  rewrite (Hh e w1). exact Hm.
Qed.

Lemma keeps_with_file (p : positive) (k : file -> M A) :
  (forall f, keeps_dict (k f)) -> keeps_dict (with_file p k).
Proof.
  intros Hk w. unfold with_file. destruct (fs w !! p); [apply Hk | reflexivity].
Qed.

Lemma keeps_if (b : bool) (m1 m2 : M A) :
  keeps_dict m1 -> keeps_dict m2 -> keeps_dict (if b then m1 else m2).
Proof. destruct b; auto. Qed.

End KeepsDict.

Lemma keeps_log (ev : event) : keeps_dict (log ev).
Proof. intros w. reflexivity. Qed.

Lemma keeps_set_fs (g : gmap positive file -> gmap positive file) :
  keeps_dict (set_fs g).
Proof. intros w. reflexivity. Qed.

Lemma keeps_create_file (suffix : pystr) : keeps_dict (create_file suffix).
Proof. intros w. reflexivity. Qed.

Lemma keeps_io_check (E : Env) (op : io_op) : keeps_dict (io_check E op).
Proof. unfold io_check. destruct (io_error E op); intros w; reflexivity. Qed.

Lemma keeps_call_gTTS (E : Env) (text lang : pystr) (slow : bool) :
  keeps_dict (call_gTTS E text lang slow).
Proof.
  unfold call_gTTS. apply keeps_bind; [apply keeps_log|]. intros _.
  destruct (gTTS_init E text lang slow); intros w; reflexivity.
Qed.

Create HintDb keeps.
#[local] Hint Resolve keeps_ret keeps_raise keeps_lift keeps_bind keeps_try_except
  keeps_with_file keeps_if keeps_log keeps_set_fs keeps_create_file keeps_io_check
  keeps_call_gTTS : keeps.

Ltac keeps :=
  repeat first
    [ apply keeps_call_gTTS | apply keeps_io_check | apply keeps_log
    | apply keeps_bind | apply keeps_try_except | apply keeps_with_file
    | apply keeps_if
    | match goal with |- forall _, _ => intro end
    | solve [auto with keeps] ].

Lemma keeps_translate_text (E : Env) (r : TranslationRequest.t) :
  keeps_dict (translate_text E r).
Proof. unfold translate_text, translate_text_try, call_translate. keeps. Qed.

Lemma keeps_speech_to_text (E : Env) (audio : bytes) (s : pystr) :
  keeps_dict (speech_to_text E audio s).
Proof.
  unfold speech_to_text, speech_to_text_try, NamedTemporaryFile, upload_read,
    file_write, AudioFile_record, call_recognize_google, call_detect, os_unlink.
  apply keeps_try_except; [keeps|]. intros e. destruct e; auto with keeps.
Qed.

Lemma keeps_text_to_speech (E : Env) (r : TTSRequest.t) :
  keeps_dict (text_to_speech E r).
Proof.
  unfold text_to_speech, text_to_speech_try, NamedTemporaryFile, call_save,
    open_read, os_unlink.
  keeps.
Qed.

(** No route writes to the dictionary of languages. *)
Lemma app_keeps_dict (E : Env) (rq : request) (w : world) :
  languages_dict (snd (app E rq w)) = languages_dict w.
Proof.
  destruct rq; simpl; try reflexivity.
  - apply keeps_translate_text.
  - apply keeps_speech_to_text.
  - apply keeps_text_to_speech.
Qed.

Lemma serve_keeps_dict (rqs : list (Env * request)) (w : world) :
  languages_dict (snd (serve rqs w)) = languages_dict w.
Proof.
  revert w. induction rqs as [|[E rq] rest IH]; intros w; simpl; [reflexivity|].
  pose proof (app_keeps_dict E rq w) as Happ.
  destruct (app E rq w) as [resp w1]. specialize (IH w1).
  destruct (serve rest w1) as [resps w2]. simpl in *. congruence.
Qed.

(** C6. After any sequence of requests since the start of the process,
    [GET /api/languages] is answered 200 with the same mapping: the 22
    entries of [indian_languages], under 22 different names, whose codes
    are all non-empty and pairwise distinct. *)
Theorem languages_catalog_fixed (rqs : list (Env * request)) (E : Env) :
  fst (app E GET_api_languages (snd (serve rqs init_world)))
    = mkresponse 200
        (JObj [ (lit "languages",
                  JObj (map (fun kv => (fst kv, JStr (snd kv))) indian_languages));
                (lit "status", JStr (lit "success")) ])
  /\ length indian_languages = 22%nat
  /\ NoDup (map fst indian_languages)
  /\ Forall (fun kv => snd kv <> []) indian_languages
  /\ NoDup (map snd indian_languages).
Proof.
  split; [|split; [|split; [|split]]].
  - simpl. unfold endpoint, get_languages. simpl.
    rewrite serve_keeps_dict. reflexivity.
  - reflexivity.
  - apply (bool_decide_unpack _). vm_compute. exact I.
  - apply Forall_forall. intros kv Hin. apply list_elem_of_In in Hin.
    vm_compute in Hin.
    repeat (destruct Hin as [<- | Hin]; [discriminate|]). destruct Hin.
  - apply (bool_decide_unpack _). vm_compute. exact I.
Qed.

(** * Further properties of the handlers *)

Lemma text_to_speech_try_outcome (E : Env) (w : world) (r : TTSRequest.t) :
  fst (text_to_speech_try E r w) = text_to_speech_outcome E r.
Proof.
  unfold text_to_speech_outcome, after_io. unfold_handlers.
  destruct (truthy (strip (TTSRequest.text r))); [|reflexivity]. simpl.
  destruct (gTTS_init E _ _ _); [reflexivity|]. simpl.
  destruct (io_error E OpNamedTemporaryFile); [reflexivity|]. simpl.
  rewrite lookup_insert_eq. simpl.
  destruct (gTTS_save E _ _ _) as [data|e]; [|reflexivity]. simpl.
  destruct (io_error E OpOpenRead); [reflexivity|]. simpl.
  rewrite lookup_insert_eq. simpl.
  destruct (io_error E OpUnlink); [reflexivity|]. simpl.
  rewrite lookup_insert_eq. reflexivity.
Qed.

(** The answers of the three handlers, from their outcomes. *)
Lemma translate_text_fst (E : Env) (w : world) (r : TranslationRequest.t) :
  fst (translate_text E r w) =
    if truthy (strip (TranslationRequest.text r)) then
      match translator_translate E (strip (TranslationRequest.text r))
              (TranslationRequest.source_lang r) (TranslationRequest.target_lang r) with
      | Ret translated =>
          Ret (TranslationResponse.mk translated (strip (TranslationRequest.text r))
                 (TranslationRequest.source_lang r) (TranslationRequest.target_lang r)
                 (lit "success"))
      | Raise e => Raise (HTTPException 500 (lit "Translation failed: " ++ str_exn E e))
      end
    else Raise (HTTPException 500
                  (lit "Translation failed: "
                   ++ http_exception_str E 400 (lit "Text is required"))).
Proof.
  destruct (truthy (strip (TranslationRequest.text r))) eqn:Ht.
  - apply truthy_true in Ht. rewrite (translate_text_nonempty E w r Ht). reflexivity.
  - apply truthy_false in Ht. rewrite (translate_text_empty E w r Ht). reflexivity.
Qed.

Lemma text_to_speech_fst (E : Env) (w : world) (r : TTSRequest.t) :
  fst (text_to_speech E r w) =
    match text_to_speech_outcome E r with
    | Ret t => Ret t
    | Raise e => Raise (HTTPException 500 (lit "Text-to-speech failed: " ++ str_exn E e))
    end.
Proof.
  rewrite <- (text_to_speech_try_outcome E w). unfold text_to_speech, try_except.
  destruct (text_to_speech_try E r w) as [[t|e] w1]; reflexivity.
Qed.

(** The same for [text_to_speech]. *)
Lemma text_to_speech_snd (E : Env) (w : world) (r : TTSRequest.t) :
  snd (text_to_speech E r w) = snd (text_to_speech_try E r w).
Proof.
  unfold text_to_speech, try_except.
  destruct (text_to_speech_try E r w) as [[t|e] w1]; reflexivity.
Qed.

(** X1. The answer to a request depends on the request, on the behaviour of
    the collaborators and, for [/api/languages], on the dictionary: neither
    the files on disk nor the calls made before have any part in it. *)
Theorem answer_independent_of_files_and_history
  (E : Env) (rq : request) (w w' : world) :
  languages_dict w = languages_dict w' ->
  fst (app E rq w) = fst (app E rq w').
Proof.
  intros Hd. destruct rq as [| | |r|audio s|r]; simpl; unfold endpoint; simpl.
  - reflexivity.
  - reflexivity.
  - rewrite Hd. reflexivity.
  - rewrite !translate_text_fst. reflexivity.
  - rewrite !speech_to_text_fst. reflexivity.
  - rewrite !text_to_speech_fst. reflexivity.
Qed.

Lemma answer_independent_of_files_and_history_witness :
  fst (app env_ok (POST_api_text_to_speech (TTSRequest.mk (lit "Hello") (lit "hi")))
         init_world)
  = fst (app env_ok (POST_api_text_to_speech (TTSRequest.mk (lit "Hello") (lit "hi")))
           world_after_silence)
  /\ fs world_after_silence <> fs init_world
  /\ calls world_after_silence <> calls init_world.
Proof.
  split; [|split].
  - exact (answer_independent_of_files_and_history env_ok
             (POST_api_text_to_speech (TTSRequest.mk (lit "Hello") (lit "hi")))
             init_world world_after_silence eq_refl).
  - vm_compute. discriminate.
  - vm_compute. discriminate.
Defined.

(** ** Files *)

Lemma fresh_name_free (m : gmap positive file) : m !! fresh (dom m) = None.
Proof. apply not_elem_of_dom. apply is_fresh. Qed.

Ltac files_done :=
  first
    [ left; reflexivity
    | right; eexists; rewrite ?insert_insert_eq; reflexivity
    | rewrite ?delete_insert_eq; apply delete_id, fresh_name_free ].

(** The files after the [try] of [speech_to_text]: as before when it
    returns; as before, or with the temporary file added, when it raises. *)
Lemma speech_to_text_try_files (E : Env) (w : world) (audio : bytes) (s : pystr) :
  match fst (speech_to_text_try E audio s w) with
  | Ret _ => fs (snd (speech_to_text_try E audio s w)) = fs w
  | Raise _ =>
      fs (snd (speech_to_text_try E audio s w)) = fs w
      \/ exists data,
          fs (snd (speech_to_text_try E audio s w))
            = <[next_temp w := mkfile (lit ".wav") data]> (fs w)
  end.
Proof.
  unfold_handlers. unfold next_temp.
  destruct (io_error E OpNamedTemporaryFile); simpl; [files_done|].
  destruct (io_error E OpUploadRead); simpl; [files_done|].
  destruct (io_error E OpWrite); simpl; [files_done|].
  rewrite lookup_insert_eq. simpl. rewrite lookup_insert_eq. simpl.
  destruct (sr_record E audio) as [a|e]; simpl; [|files_done].
  destruct (recognize_google E a (s ++ lit "-IN")) as [text|e]; simpl; [|files_done].
  destruct (truthy text); simpl.
  - destruct (detect E text) as [d|e]; simpl; [|files_done].
    destruct (io_error E OpUnlink); simpl; [files_done|].
    rewrite lookup_insert_eq. simpl. files_done.
  - destruct (io_error E OpUnlink); simpl; [files_done|].
    rewrite lookup_insert_eq. simpl. files_done.
Qed.

Lemma text_to_speech_try_files (E : Env) (w : world) (r : TTSRequest.t) :
  match fst (text_to_speech_try E r w) with
  | Ret _ => fs (snd (text_to_speech_try E r w)) = fs w
  | Raise _ =>
      fs (snd (text_to_speech_try E r w)) = fs w
      \/ exists data,
          fs (snd (text_to_speech_try E r w))
            = <[next_temp w := mkfile (lit ".mp3") data]> (fs w)
  end.
Proof.
  unfold_handlers. unfold next_temp.
  destruct (truthy (strip (TTSRequest.text r))); simpl; [|files_done].
  destruct (gTTS_init E _ _ _); simpl; [files_done|].
  destruct (io_error E OpNamedTemporaryFile); simpl; [files_done|].
  rewrite lookup_insert_eq. simpl.
  destruct (gTTS_save E _ _ _) as [data|e]; simpl; [|files_done].
  destruct (io_error E OpOpenRead); simpl; [files_done|].
  rewrite lookup_insert_eq. simpl.
  destruct (io_error E OpUnlink); simpl; [files_done|].
  rewrite lookup_insert_eq. simpl. files_done.
Qed.

Lemma translate_text_files (E : Env) (w : world) (r : TranslationRequest.t) :
  fs (snd (translate_text E r w)) = fs w.
Proof.
  destruct (strip (TranslationRequest.text r)) as [|c t] eqn:Hs.
  - rewrite (translate_text_empty E w r Hs). reflexivity.
  - rewrite (translate_text_nonempty E w r) by (rewrite Hs; discriminate). reflexivity.
Qed.

(** The files after any request: as before, or with one file added under
    the name that was free. *)
Lemma app_files (E : Env) (rq : request) (w : world) :
  fs (snd (app E rq w)) = fs w
  \/ exists f,
      fs w !! next_temp w = None
      /\ fs (snd (app E rq w)) = <[next_temp w := f]> (fs w).
Proof.
  destruct rq as [| | |r|audio s|r]; simpl; unfold endpoint; simpl; auto.
  - left. apply translate_text_files.
  - rewrite speech_to_text_snd.
    pose proof (speech_to_text_try_files E w audio s) as H.
    destruct (fst (speech_to_text_try E audio s w)); [auto|].
    destruct H as [H | [data H]]; [auto|].
    right. exists (mkfile (lit ".wav") data). split; [apply next_temp_fresh | exact H].
  - rewrite text_to_speech_snd.
    pose proof (text_to_speech_try_files E w r) as H.
    destruct (fst (text_to_speech_try E r w)); [auto|].
    destruct H as [H | [data H]]; [auto|].
    right. exists (mkfile (lit ".mp3") data). split; [apply next_temp_fresh | exact H].
Qed.

(** X2. What one request does to the disk. The routes other than the two
    speech routes leave the files as they are. A speech route leaves them
    as they are, or adds one file, under the name that was free: it never
    adds more than one. *)
Theorem request_adds_at_most_one_file (E : Env) (rq : request) (w : world) :
  (uses_temp_file rq = false -> fs (snd (app E rq w)) = fs w)
  /\ (fs (snd (app E rq w)) = fs w
      \/ exists f,
          fs w !! next_temp w = None
          /\ fs (snd (app E rq w)) = <[next_temp w := f]> (fs w)).
Proof.
  split; [|apply app_files].
  destruct rq as [| | |r|audio s|r]; simpl; try discriminate; try reflexivity.
  intros _. apply translate_text_files.
Qed.

Lemma request_adds_at_most_one_file_witness :
  fs (snd (app env_ok
             (POST_api_translate (TranslationRequest.mk (lit "Hello") (lit "en") (lit "hi")))
             world_after_silence))
  = fs world_after_silence.
Proof.
  exact (proj1 (request_adds_at_most_one_file env_ok
                  (POST_api_translate
                     (TranslationRequest.mk (lit "Hello") (lit "en") (lit "hi")))
                  world_after_silence) eq_refl).
Defined.

(** X3. A file that is on disk when a request arrives is still there, with
    the same contents, when the request has been answered: no handler
    removes or rewrites a file it did not create. *)
Theorem existing_files_untouched
  (E : Env) (rq : request) (w : world) (p : positive) (f : file) :
  fs w !! p = Some f ->
  fs (snd (app E rq w)) !! p = Some f.
Proof.
  intros Hp.
  destruct (app_files E rq w) as [-> | (g & Hfree & ->)].
  - exact Hp.
  - rewrite lookup_insert_ne; [exact Hp|]. intros <-. congruence.
Qed.

(** The file a failed recognition left survives a later request, which
    fails in turn and leaves a second one. *)
Lemma existing_files_untouched_witness :
  fs (snd (app env_tts_down
             (POST_api_text_to_speech (TTSRequest.mk (lit "Hello") (lit "hi")))
             world_after_silence)) !! 1%positive
  = Some (mkfile (lit ".wav") [Byte.x00]).
Proof.
  exact (existing_files_untouched env_tts_down
           (POST_api_text_to_speech (TTSRequest.mk (lit "Hello") (lit "hi")))
           world_after_silence 1%positive (mkfile (lit ".wav") [Byte.x00]) eq_refl).
Defined.

(** X4. A request that is answered 200 leaves the files exactly as it found
    them: on success the temporary file of the two speech routes has been
    unlinked. *)
Theorem success_leaves_no_file (E : Env) (rq : request) (w : world) :
  status_code (fst (app E rq w)) = 200 ->
  fs (snd (app E rq w)) = fs w.
Proof.
  destruct rq as [| | |r|audio s|r]; simpl; unfold endpoint; simpl; try reflexivity.
  - intros _. apply translate_text_files.
  - rewrite speech_to_text_snd.
    pose proof (speech_to_text_try_files E w audio s) as H.
    destruct (speech_to_text_try E audio s w) as [[t|e] w1] eqn:Htry; simpl in *.
    + intros _. exact H.
    + rewrite (speech_to_text_raised E w audio s e w1 Htry). destruct e; discriminate.
  - rewrite text_to_speech_snd. unfold text_to_speech, try_except.
    pose proof (text_to_speech_try_files E w r) as H.
    destruct (text_to_speech_try E r w) as [[t|e] w1]; simpl in *.
    + intros _. exact H.
    + discriminate.
Qed.

Lemma success_leaves_no_file_witness :
  fs (snd (app env_ok (POST_api_speech_to_text [Byte.x52] (lit "hi")) world_after_silence))
  = fs world_after_silence.
Proof.
  exact (success_leaves_no_file env_ok (POST_api_speech_to_text [Byte.x52] (lit "hi"))
           world_after_silence eq_refl).
Defined.

(** ** Status codes *)

(** X5. [/api/translate] and [/api/text-to-speech] answer 200 or 500 and
    nothing else: in particular never 400. [/api/speech-to-text] answers
    200, 400 or 500, and 400 exactly when its [try] raised
    [UnknownValueError]. *)
Theorem status_codes_of_routes (E : Env) (w : world) :
  (forall r : TranslationRequest.t,
      status_code (fst (app E (POST_api_translate r) w)) = 200
      \/ status_code (fst (app E (POST_api_translate r) w)) = 500)
  /\ (forall r : TTSRequest.t,
      status_code (fst (app E (POST_api_text_to_speech r) w)) = 200
      \/ status_code (fst (app E (POST_api_text_to_speech r) w)) = 500)
  /\ (forall (audio : bytes) (s : pystr),
      (status_code (fst (app E (POST_api_speech_to_text audio s) w)) = 200
       \/ status_code (fst (app E (POST_api_speech_to_text audio s) w)) = 400
       \/ status_code (fst (app E (POST_api_speech_to_text audio s) w)) = 500)
      /\ (status_code (fst (app E (POST_api_speech_to_text audio s) w)) = 400
          <-> exists m, fst (speech_to_text_try E audio s w) = Raise (UnknownValueError m))).
Proof.
  split; [|split].
  - intros r. simpl. unfold endpoint. rewrite translate_text_fst.
    destruct (truthy _); [|auto]. destruct (translator_translate E _ _ _); auto.
  - intros r. simpl. unfold endpoint. rewrite text_to_speech_fst.
    destruct (text_to_speech_outcome E r); auto.
  - intros audio s. simpl. unfold endpoint.
    rewrite speech_to_text_fst, speech_to_text_try_outcome.
    destruct (speech_to_text_outcome E audio s) as [r|[c d|m|c m]]; simpl.
    + split; [auto|]. split; [discriminate | intros [m [=]]].
    + split; [auto|]. split; [discriminate | intros [m [=]]].
    + split; [auto|]. split; eauto.
    + split; [auto|]. split; [discriminate | intros [m' [=]]].
Qed.

Lemma status_codes_of_routes_witness :
  status_code (fst (app env_silence (POST_api_speech_to_text [Byte.x00] (lit "hi"))
                      init_world)) = 400.
Proof.
  exact (proj2 (proj2 (proj2 (proj2 (status_codes_of_routes env_silence init_world))
                         [Byte.x00] (lit "hi")))
           (ex_intro _ [] eq_refl)).
Defined.

(** ** Successful answers *)

(** X6. [/api/translate] answers 200 exactly when the trimmed text is not
    empty and the translator returns; the body then carries the
    translator's text, the trimmed text and the two codes of the request. *)
Theorem translate_success_iff (E : Env) (w : world) (r : TranslationRequest.t) :
  (status_code (fst (app E (POST_api_translate r) w)) = 200
   <-> strip (TranslationRequest.text r) <> []
       /\ exists translated,
           translator_translate E (strip (TranslationRequest.text r))
             (TranslationRequest.source_lang r) (TranslationRequest.target_lang r)
           = Ret translated)
  /\ (forall translated,
      strip (TranslationRequest.text r) <> [] ->
      translator_translate E (strip (TranslationRequest.text r))
        (TranslationRequest.source_lang r) (TranslationRequest.target_lang r)
      = Ret translated ->
      fst (app E (POST_api_translate r) w)
      = mkresponse 200
          (JObj [ (lit "translated_text", JStr translated);
                  (lit "original_text", JStr (strip (TranslationRequest.text r)));
                  (lit "source_lang", JStr (TranslationRequest.source_lang r));
                  (lit "target_lang", JStr (TranslationRequest.target_lang r));
                  (lit "status", JStr (lit "success")) ])).
Proof.
  simpl. unfold endpoint. rewrite translate_text_fst.
  destruct (truthy (strip (TranslationRequest.text r))) eqn:Ht.
  - apply truthy_true in Ht.
    destruct (translator_translate E _ _ _) as [t|e]; simpl.
    + split; [split; eauto|]. intros t' _ [= <-]. reflexivity.
    + split; [|intros t' _ [=]]. split; [discriminate|]. intros (_ & t & [=]).
  - apply truthy_false in Ht. simpl.
    split; [|intros t' Hne; congruence]. split; [discriminate|]. intros (Hne & _).
    congruence.
Qed.

Lemma translate_success_iff_witness :
  fst (app env_ok
         (POST_api_translate (TranslationRequest.mk (lit " Hello ") (lit "en") (lit "hi")))
         init_world)
  = mkresponse 200
      (JObj [ (lit "translated_text", JStr (lit "Hello"));
              (lit "original_text", JStr (lit "Hello"));
              (lit "source_lang", JStr (lit "en"));
              (lit "target_lang", JStr (lit "hi"));
              (lit "status", JStr (lit "success")) ]).
Proof.
  exact (proj2 (translate_success_iff env_ok init_world
                  (TranslationRequest.mk (lit " Hello ") (lit "en") (lit "hi")))
           (lit "Hello") ltac:(vm_compute; discriminate) eq_refl).
Defined.

(** X7. [/api/speech-to-text] answers 200 exactly when the upload was
    stored, decoded and recognized, detection (asked only for a non-empty
    text) answered, and the file was unlinked; the body then carries the
    recognizer's text, the source language of the request and the detected
    language, or null for an empty text. *)
Theorem speech_to_text_success_iff
  (E : Env) (w : world) (audio : bytes) (s : pystr) :
  (status_code (fst (app E (POST_api_speech_to_text audio s) w)) = 200
   <-> exists a text,
       audio_loaded E audio a
       /\ recognize_google E a (s ++ lit "-IN") = Ret text
       /\ (text = [] \/ exists l, detect E text = Ret l)
       /\ io_error E OpUnlink = None)
  /\ (forall a text d,
      audio_loaded E audio a ->
      recognize_google E a (s ++ lit "-IN") = Ret text ->
      (text = [] /\ d = None
       \/ text <> [] /\ exists l, detect E text = Ret l /\ d = Some l) ->
      io_error E OpUnlink = None ->
      fst (app E (POST_api_speech_to_text audio s) w)
      = mkresponse 200
          (JObj [ (lit "recognized_text", JStr text);
                  (lit "source_lang", JStr s);
                  (lit "detected_lang", match d with Some l => JStr l | None => JNull end);
                  (lit "status", JStr (lit "success")) ])).
Proof.
  simpl. unfold endpoint. rewrite speech_to_text_fst.
  unfold speech_to_text_outcome, after_io, audio_loaded.
  split; [split|].
  - destruct (io_error E OpNamedTemporaryFile) as [e|] eqn:H1;
      [destruct e; discriminate|].
    destruct (io_error E OpUploadRead) as [e|] eqn:H2; [destruct e; discriminate|].
    destruct (io_error E OpWrite) as [e|] eqn:H3; [destruct e; discriminate|].
    destruct (sr_record E audio) as [a|e] eqn:H4; [|destruct e; discriminate].
    destruct (recognize_google E a (s ++ lit "-IN")) as [text|e] eqn:H5;
      [|destruct e; discriminate].
    destruct (truthy text) eqn:Ht.
    + destruct (detect E text) as [l|e] eqn:H6; [|destruct e; discriminate].
      destruct (io_error E OpUnlink) as [e|] eqn:H7; [destruct e; discriminate|].
      intros _. exists a, text. repeat split; eauto.
    + apply truthy_false in Ht.
      destruct (io_error E OpUnlink) as [e|] eqn:H7; [destruct e; discriminate|].
      intros _. exists a, text. repeat split; auto.
  - intros (a & text & (H1 & H2 & H3 & H4) & H5 & H6 & H7).
    rewrite H1, H2, H3, H4, H5.
    destruct (truthy text) eqn:Ht.
    + destruct H6 as [-> | [l Hl]]; [discriminate Ht|]. rewrite Hl, H7. reflexivity.
    + rewrite H7. reflexivity.
  - intros a text d (H1 & H2 & H3 & H4) H5 H6 H7.
    rewrite H1, H2, H3, H4, H5.
    destruct H6 as [[-> ->] | (Hne & l & Hl & ->)].
    + simpl. rewrite H7. reflexivity.
    + apply truthy_true in Hne. rewrite Hne, Hl, H7. reflexivity.
Qed.

Lemma speech_to_text_success_iff_witness :
  fst (app env_ok (POST_api_speech_to_text [Byte.x52] (lit "hi")) init_world)
  = mkresponse 200
      (JObj [ (lit "recognized_text", JStr (lit "namaste"));
              (lit "source_lang", JStr (lit "hi"));
              (lit "detected_lang", JStr (lit "hi"));
              (lit "status", JStr (lit "success")) ]).
Proof.
  apply (proj2 (speech_to_text_success_iff env_ok init_world [Byte.x52] (lit "hi"))
           [Byte.x52] (lit "namaste") (Some (lit "hi"))).
  - repeat split.
  - reflexivity.
  - right. split; [discriminate|]. exists (lit "hi"). split; reflexivity.
  - reflexivity.
Defined.

(** X8. [/api/text-to-speech] answers 200 exactly when the trimmed text is
    not empty, the synthesizer accepts it and saves its audio, and the file
    is created, read back and unlinked; [audio_data] is then the base64
    encoding of the bytes the synthesizer saved, and [target_lang] the code
    of the request. *)
Theorem text_to_speech_success_iff (E : Env) (w : world) (r : TTSRequest.t) :
  (status_code (fst (app E (POST_api_text_to_speech r) w)) = 200
   <-> strip (TTSRequest.text r) <> []
       /\ gTTS_init E (strip (TTSRequest.text r)) (TTSRequest.target_lang r) false = None
       /\ io_error E OpNamedTemporaryFile = None
       /\ (exists data,
              gTTS_save E (strip (TTSRequest.text r)) (TTSRequest.target_lang r) false
              = Ret data)
       /\ io_error E OpOpenRead = None
       /\ io_error E OpUnlink = None)
  /\ (forall data,
      strip (TTSRequest.text r) <> [] ->
      gTTS_init E (strip (TTSRequest.text r)) (TTSRequest.target_lang r) false = None ->
      io_error E OpNamedTemporaryFile = None ->
      gTTS_save E (strip (TTSRequest.text r)) (TTSRequest.target_lang r) false = Ret data ->
      io_error E OpOpenRead = None ->
      io_error E OpUnlink = None ->
      fst (app E (POST_api_text_to_speech r) w)
      = mkresponse 200
          (JObj [ (lit "audio_data", JStr (b64encode data));
                  (lit "target_lang", JStr (TTSRequest.target_lang r));
                  (lit "status", JStr (lit "success")) ])).
Proof.
  simpl. unfold endpoint. rewrite text_to_speech_fst.
  unfold text_to_speech_outcome, after_io.
  split; [split|].
  - destruct (truthy (strip (TTSRequest.text r))) eqn:Ht; [|discriminate].
    apply truthy_true in Ht.
    destruct (gTTS_init E _ _ _) eqn:H1; [discriminate|].
    destruct (io_error E OpNamedTemporaryFile) eqn:H2; [discriminate|].
    destruct (gTTS_save E _ _ _) as [data|e] eqn:H3; [|discriminate].
    destruct (io_error E OpOpenRead) eqn:H4; [discriminate|].
    destruct (io_error E OpUnlink) eqn:H5; [discriminate|].
    intros _. repeat split; eauto.
  - intros (H1 & H2 & H3 & (data & H4) & H5 & H6).
    apply truthy_true in H1. rewrite H1, H2, H3, H4, H5, H6. reflexivity.
  - intros data H1 H2 H3 H4 H5 H6.
    apply truthy_true in H1. rewrite H1, H2, H3, H4, H5, H6. reflexivity.
Qed.

Lemma text_to_speech_success_iff_witness :
  fst (app env_ok (POST_api_text_to_speech (TTSRequest.mk (lit " Hello ") (lit "hi")))
         init_world)
  = mkresponse 200
      (JObj [ (lit "audio_data", JStr (lit "SUQz"));
              (lit "target_lang", JStr (lit "hi"));
              (lit "status", JStr (lit "success")) ]).
Proof.
  exact (proj2 (text_to_speech_success_iff env_ok init_world
                  (TTSRequest.mk (lit " Hello ") (lit "hi")))
           [Byte.x49; Byte.x44; Byte.x33] ltac:(vm_compute; discriminate)
           eq_refl eq_refl eq_refl eq_refl eq_refl).
Defined.

(** ** Collaborator calls *)

Lemma text_to_speech_try_trace (E : Env) (w : world) (r : TTSRequest.t) :
  calls (snd (text_to_speech_try E r w)) =
    calls w ++
    if truthy (strip (TTSRequest.text r)) then
      CallGTTS (strip (TTSRequest.text r)) (TTSRequest.target_lang r) false
      :: match gTTS_init E (strip (TTSRequest.text r)) (TTSRequest.target_lang r) false,
               io_error E OpNamedTemporaryFile with
         | None, None =>
             [CallSave (strip (TTSRequest.text r)) (TTSRequest.target_lang r) false]
         | _, _ => []
         end
    else [].
Proof.
  unfold_handlers.
  destruct (truthy (strip (TTSRequest.text r))); simpl; [|trace_done].
  destruct (gTTS_init E _ _ _); simpl; [trace_done|].
  destruct (io_error E OpNamedTemporaryFile); simpl; [trace_done|].
  rewrite lookup_insert_eq. simpl.
  destruct (gTTS_save E _ _ _) as [data|e]; simpl; [|trace_done].
  destruct (io_error E OpOpenRead); simpl; [trace_done|].
  rewrite lookup_insert_eq. simpl.
  destruct (io_error E OpUnlink); simpl; [trace_done|].
  rewrite lookup_insert_eq. trace_done.
Qed.

Lemma translate_text_trace (E : Env) (w : world) (r : TranslationRequest.t) :
  calls (snd (translate_text E r w)) =
    calls w ++
    if truthy (strip (TranslationRequest.text r)) then
      [CallTranslate (strip (TranslationRequest.text r))
         (TranslationRequest.source_lang r) (TranslationRequest.target_lang r)]
    else [].
Proof.
  destruct (truthy (strip (TranslationRequest.text r))) eqn:Ht.
  - apply truthy_true in Ht. rewrite (translate_text_nonempty E w r Ht). reflexivity.
  - apply truthy_false in Ht. rewrite (translate_text_empty E w r Ht).
    symmetry. apply app_nil_r.
Qed.

(** X9. The calls of one request to [/api/text-to-speech]: none when the
    trimmed text is empty; otherwise the synthesizer is built with the
    trimmed text, the target code of the request as it came and the normal
    speaking rate ([slow=False]), and asked to save its audio, with the
    same arguments, once it has accepted them and the file exists. *)
Theorem synthesis_calls (E : Env) (w : world) (r : TTSRequest.t) :
  new_calls w (snd (app E (POST_api_text_to_speech r) w)) =
    if truthy (strip (TTSRequest.text r)) then
      CallGTTS (strip (TTSRequest.text r)) (TTSRequest.target_lang r) false
      :: match gTTS_init E (strip (TTSRequest.text r)) (TTSRequest.target_lang r) false,
               io_error E OpNamedTemporaryFile with
         | None, None =>
             [CallSave (strip (TTSRequest.text r)) (TTSRequest.target_lang r) false]
         | _, _ => []
         end
    else [].
Proof.
  apply new_calls_app. simpl. rewrite text_to_speech_snd.
  apply text_to_speech_try_trace.
Qed.

(** X10. The detector is only ever called on a text that is not empty and
    that the recognizer has just returned for the decoded upload. *)
Theorem detection_only_on_recognized_text
  (E : Env) (w : world) (audio : bytes) (s : pystr) (t : pystr) :
  In (CallDetect t) (new_calls w (snd (app E (POST_api_speech_to_text audio s) w))) ->
  t <> []
  /\ exists a, sr_record E audio = Ret a
               /\ recognize_google E a (s ++ lit "-IN") = Ret t.
Proof.
  simpl. rewrite speech_to_text_snd.
  rewrite (new_calls_app _ _ _ (speech_to_text_try_trace E w audio s)).
  destruct (io_error E OpNamedTemporaryFile); [intros []|].
  destruct (io_error E OpUploadRead); [intros []|].
  destruct (io_error E OpWrite); [intros []|].
  destruct (sr_record E audio) as [a|e]; [|intros []].
  destruct (recognize_google E a (s ++ lit "-IN")) as [text|e] eqn:Hrec.
  - destruct (truthy text) eqn:Ht; simpl.
    + intros [[=] | [[= <-] | []]]. apply truthy_true in Ht. eauto.
    + intros [[=] | []].
  - simpl. intros [[=] | []].
Qed.

Lemma detection_only_on_recognized_text_witness :
  exists a, sr_record env_ok [Byte.x52] = Ret a
            /\ recognize_google env_ok a (lit "hi-IN") = Ret (lit "namaste").
Proof.
  exact (proj2 (detection_only_on_recognized_text env_ok init_world [Byte.x52] (lit "hi")
                  (lit "namaste") ltac:(vm_compute; auto))).
Defined.

(** X11. Whatever the outcome, a request calls the collaborators of its own
    route and no other, at most twice in all, after the calls that were
    already made; the three [GET] routes call none. *)
Theorem routes_call_their_own_collaborators (E : Env) (rq : request) (w : world) :
  calls (snd (app E rq w)) = calls w ++ new_calls w (snd (app E rq w))
  /\ Forall (fun ev => own_collaborator rq ev = true) (new_calls w (snd (app E rq w)))
  /\ (length (new_calls w (snd (app E rq w))) <= 2)%nat.
Proof.
  assert (Hgen : forall w' evs,
             calls w' = calls w ++ evs ->
             Forall (fun ev => own_collaborator rq ev = true) evs ->
             (length evs <= 2)%nat ->
             calls w' = calls w ++ new_calls w w'
             /\ Forall (fun ev => own_collaborator rq ev = true) (new_calls w w')
             /\ (length (new_calls w w') <= 2)%nat).
  { intros w' evs Hc Hf Hl. rewrite (new_calls_app w w' evs Hc). auto. }
  destruct rq as [| | |r|audio s|r]; simpl; unfold endpoint; simpl.
  - apply (Hgen w []); [symmetry; apply app_nil_r | constructor | simpl; lia].
  - apply (Hgen w []); [symmetry; apply app_nil_r | constructor | simpl; lia].
  - apply (Hgen w []); [symmetry; apply app_nil_r | constructor | simpl; lia].
  - eapply Hgen; [apply translate_text_trace | |].
    + destruct (truthy _); repeat constructor.
    + destruct (truthy _); simpl; lia.
  - rewrite speech_to_text_snd.
    eapply Hgen; [apply speech_to_text_try_trace | |].
    + destruct (io_error E OpNamedTemporaryFile); [constructor|].
      destruct (io_error E OpUploadRead); [constructor|].
      destruct (io_error E OpWrite); [constructor|].
      destruct (sr_record E audio) as [a|e]; [|constructor].
      destruct (recognize_google E a _) as [text|e]; [|repeat constructor].
      destruct (truthy text); repeat constructor.
    + destruct (io_error E OpNamedTemporaryFile); [simpl; lia|].
      destruct (io_error E OpUploadRead); [simpl; lia|].
      destruct (io_error E OpWrite); [simpl; lia|].
      destruct (sr_record E audio) as [a|e]; [|simpl; lia].
      destruct (recognize_google E a _) as [text|e]; [|simpl; lia].
      destruct (truthy text); simpl; lia.
  - rewrite text_to_speech_snd.
    eapply Hgen; [apply text_to_speech_try_trace | |].
    + destruct (truthy _); [|constructor].
      destruct (gTTS_init E _ _ _); [repeat constructor|].
      destruct (io_error E OpNamedTemporaryFile); repeat constructor.
    + destruct (truthy _); [|simpl; lia].
      destruct (gTTS_init E _ _ _); [simpl; lia|].
      destruct (io_error E OpNamedTemporaryFile); simpl; lia.
Qed.

(** ** What trimming keeps *)

Lemma lstrip_split (s : pystr) :
  exists pre, s = pre ++ lstrip s /\ forallb isspace pre = true.
Proof.
  induction s as [|c r (pre & Hr & Hpre)]; simpl.
  - exists []. auto.
  - destruct (isspace c) eqn:Hc.
    + exists (c :: pre). simpl. rewrite Hc, Hpre. split; [congruence | reflexivity].
    + exists []. auto.
Qed.

Lemma rstrip_split (s : pystr) :
  exists post, s = rstrip s ++ post /\ forallb isspace post = true.
Proof.
  unfold rstrip. destruct (lstrip_split (rev s)) as (q & Hq & Hsp).
  exists (rev q). rewrite forallb_rev. split; [|exact Hsp].
  rewrite <- rev_app_distr, <- Hq. symmetry. apply rev_involutive.
Qed.

Lemma lstrip_fixed (s : pystr) :
  (forall c, head s = Some c -> isspace c = false) -> lstrip s = s.
Proof.
  destruct s as [|c r]; [reflexivity|]. intros H. simpl. rewrite (H c eq_refl).
  reflexivity.
Qed.

Lemma last_rev_head (s : pystr) : last (rev s) = head s.
Proof. destruct s as [|c r]; [reflexivity|]. simpl. apply last_snoc. Qed.

Lemma head_rev_last (s : pystr) : head (rev s) = last s.
Proof. rewrite <- (rev_involutive s) at 2. symmetry. apply last_rev_head. Qed.

Lemma lstrip_head_not_space (s : pystr) (c : N) :
  head (lstrip s) = Some c -> isspace c = false.
Proof.
  destruct (lstrip s) as [|a r] eqn:Hs; [discriminate|].
  intros [= <-]. exact (lstrip_head s a r Hs).
Qed.

(** The trimmed text starts and ends with a character that is not white
    space, and is the text itself between a prefix and a suffix of white
    space. *)
Lemma strip_spec (s : pystr) :
  (forall c, head (strip s) = Some c -> isspace c = false)
  /\ (forall c, last (strip s) = Some c -> isspace c = false)
  /\ exists pre post,
      s = pre ++ strip s ++ post
      /\ forallb isspace pre = true /\ forallb isspace post = true.
Proof.
  destruct (lstrip_split s) as (pre & Hs & Hpre).
  destruct (rstrip_split (lstrip s)) as (post & Hu & Hpost).
  fold (strip s) in Hu. split; [|split].
  - intros c Hc. apply (lstrip_head_not_space s c).
    rewrite Hu. destruct (strip s); [discriminate | exact Hc].
  - intros c. unfold strip, rstrip. rewrite last_rev_head.
    apply lstrip_head_not_space.
  - exists pre, post. rewrite <- Hu. auto.
Qed.

Lemma strip_idempotent (s : pystr) : strip (strip s) = strip s.
Proof.
  destruct (strip_spec s) as (Hh & Hl & _).
  unfold strip at 1. rewrite (lstrip_fixed _ Hh). unfold rstrip.
  rewrite lstrip_fixed; [apply rev_involutive|].
  intros c. rewrite head_rev_last. apply Hl.
Qed.

(** X12. The text the translator receives is the text of the request less
    a prefix and a suffix made of white space only: what lies between is
    passed on unchanged, and it neither starts nor ends with white space. *)
Theorem translator_receives_trimmed_text
  (E : Env) (w : world) (r : TranslationRequest.t) :
  strip (TranslationRequest.text r) <> [] ->
  exists pre t post,
    TranslationRequest.text r = pre ++ t ++ post
    /\ forallb isspace pre = true
    /\ forallb isspace post = true
    /\ (forall c, head t = Some c -> isspace c = false)
    /\ (forall c, last t = Some c -> isspace c = false)
    /\ new_calls w (snd (app E (POST_api_translate r) w))
       = [CallTranslate t (TranslationRequest.source_lang r)
            (TranslationRequest.target_lang r)].
Proof.
  intros Hne.
  destruct (strip_spec (TranslationRequest.text r))
    as (Hh & Hl & pre & post & Hs & Hpre & Hpost).
  exists pre, (strip (TranslationRequest.text r)), post.
  repeat (split; [assumption|]).
  apply new_calls_app. simpl. rewrite translate_text_trace.
  apply truthy_true in Hne. rewrite Hne. reflexivity.
Qed.

Lemma translator_receives_trimmed_text_witness :
  exists pre t post,
    lit "  good morning " = pre ++ t ++ post
    /\ forallb isspace pre = true
    /\ forallb isspace post = true
    /\ (forall c, head t = Some c -> isspace c = false)
    /\ (forall c, last t = Some c -> isspace c = false)
    /\ new_calls init_world
         (snd (app env_ok
                 (POST_api_translate
                    (TranslationRequest.mk (lit "  good morning ") (lit "en") (lit "hi")))
                 init_world))
       = [CallTranslate t (lit "en") (lit "hi")].
Proof.
  exact (translator_receives_trimmed_text env_ok init_world
           (TranslationRequest.mk (lit "  good morning ") (lit "en") (lit "hi"))
           ltac:(vm_compute; discriminate)).
Defined.

(** X13. Sending back the [original_text] of an answer, that is the
    trimmed text, in place of the text gives the same answer and has the
    same effects, on [/api/translate] and on [/api/text-to-speech]:
    trimming twice is trimming once. *)
Theorem trimmed_text_is_answered_alike (E : Env) (w : world) :
  (forall r : TranslationRequest.t,
      app E (POST_api_translate
               (TranslationRequest.mk (strip (TranslationRequest.text r))
                  (TranslationRequest.source_lang r) (TranslationRequest.target_lang r))) w
      = app E (POST_api_translate r) w)
  /\ (forall r : TTSRequest.t,
      app E (POST_api_text_to_speech
               (TTSRequest.mk (strip (TTSRequest.text r)) (TTSRequest.target_lang r))) w
      = app E (POST_api_text_to_speech r) w).
Proof.
  split; intros r; simpl; unfold endpoint.
  - unfold translate_text, translate_text_try. simpl.
    rewrite strip_idempotent. reflexivity.
  - unfold text_to_speech, text_to_speech_try. simpl.
    rewrite strip_idempotent. reflexivity.
Qed.

(** ** The audio payload *)

Lemma byte_values_all (P : N -> bool) :
  forallb P byte_values = true -> forall n, n <= 255 -> P n = true.
Proof.
  intros H n Hn. rewrite forallb_forall in H. apply H.
  unfold byte_values. apply in_map_iff. exists (N.to_nat n).
  split; [apply N2Nat.id|]. apply in_seq. lia.
Qed.

Lemma byte_values_pairs (P : N -> N -> bool) :
  forallb (fun a => forallb (P a) byte_values) byte_values = true ->
  forall a b, a <= 255 -> b <= 255 -> P a b = true.
Proof.
  intros H a b Ha Hb.
  apply (byte_values_all (P a)); [|exact Hb].
  apply (byte_values_all (fun a => forallb (P a) byte_values)); assumption.
Qed.

Lemma list_ind3 {A : Type} (P : list A -> Prop) :
  P [] -> (forall a, P [a]) -> (forall a b, P [a; b]) ->
  (forall a b c r, P r -> P (a :: b :: c :: r)) ->
  forall l, P l.
Proof.
  intros H0 H1 H2 H3 l.
  cut (P l /\ (forall a, P (a :: l)) /\ (forall a b, P (a :: b :: l))); [tauto|].
  induction l as [|c r (IH0 & IH1 & IH2)]; auto.
Qed.

(** One full group read back, character by character. *)
Lemma b64_group_first (a b : N) :
  a <= 255 -> b <= 255 ->
  N.lor (N.shiftl (b64_index (b64_char (N.shiftr a 2))) 2)
    (N.shiftr (b64_index (b64_char (N.lor (N.shiftl (N.land a 3) 4) (N.shiftr b 4)))) 4)
  = a.
Proof.
  intros Ha Hb. apply N.eqb_eq.
  apply (byte_values_pairs (fun a b =>
    N.lor (N.shiftl (b64_index (b64_char (N.shiftr a 2))) 2)
      (N.shiftr (b64_index (b64_char (N.lor (N.shiftl (N.land a 3) 4) (N.shiftr b 4)))) 4)
    =? a)); [vm_compute; reflexivity | assumption | assumption].
Qed.

Lemma b64_group_second_high (a b : N) :
  a <= 255 -> b <= 255 ->
  N.shiftl (N.land (b64_index (b64_char (N.lor (N.shiftl (N.land a 3) 4) (N.shiftr b 4))))
              15) 4
  = N.shiftl (N.shiftr b 4) 4.
Proof.
  intros Ha Hb. apply N.eqb_eq.
  apply (byte_values_pairs (fun a b =>
    N.shiftl (N.land (b64_index (b64_char (N.lor (N.shiftl (N.land a 3) 4) (N.shiftr b 4))))
                15) 4
    =? N.shiftl (N.shiftr b 4) 4)); [vm_compute; reflexivity | assumption | assumption].
Qed.

Lemma b64_group_second_low (b c : N) :
  b <= 255 -> c <= 255 ->
  N.shiftr (b64_index (b64_char (N.lor (N.shiftl (N.land b 15) 2) (N.shiftr c 6)))) 2
  = N.land b 15.
Proof.
  intros Hb Hc. apply N.eqb_eq.
  apply (byte_values_pairs (fun b c =>
    N.shiftr (b64_index (b64_char (N.lor (N.shiftl (N.land b 15) 2) (N.shiftr c 6)))) 2
    =? N.land b 15)); [vm_compute; reflexivity | assumption | assumption].
Qed.

Lemma b64_nibbles (b : N) :
  b <= 255 -> N.lor (N.shiftl (N.shiftr b 4) 4) (N.land b 15) = b.
Proof.
  intros Hb. apply N.eqb_eq.
  apply (byte_values_all (fun b => N.lor (N.shiftl (N.shiftr b 4) 4) (N.land b 15) =? b));
    [vm_compute; reflexivity | assumption].
Qed.

Lemma b64_group_third (b c : N) :
  b <= 255 -> c <= 255 ->
  N.lor (N.shiftl (N.land (b64_index (b64_char (N.lor (N.shiftl (N.land b 15) 2)
                                                  (N.shiftr c 6)))) 3) 6)
    (b64_index (b64_char (N.land c 63)))
  = c.
Proof.
  intros Hb Hc. apply N.eqb_eq.
  apply (byte_values_pairs (fun b c =>
    N.lor (N.shiftl (N.land (b64_index (b64_char (N.lor (N.shiftl (N.land b 15) 2)
                                                    (N.shiftr c 6)))) 3) 6)
      (b64_index (b64_char (N.land c 63)))
    =? c)); [vm_compute; reflexivity | assumption | assumption].
Qed.

(** No character of a full group is the padding. *)
Lemma b64_group_no_padding (b c : N) :
  b <= 255 -> c <= 255 ->
  (b64_char (N.lor (N.shiftl (N.land b 15) 2) (N.shiftr c 6)) =? 61) = false
  /\ (b64_char (N.land c 63) =? 61) = false.
Proof.
  intros Hb Hc. apply orb_false_iff. apply negb_true_iff.
  apply (byte_values_pairs (fun b c =>
    negb ((b64_char (N.lor (N.shiftl (N.land b 15) 2) (N.shiftr c 6)) =? 61)
          || (b64_char (N.land c 63) =? 61))));
    [vm_compute; reflexivity | assumption | assumption].
Qed.

(** The last group of a text of 3n+2 bytes, and of 3n+1 bytes. *)
Lemma b64_tail_two (b : N) :
  b <= 255 ->
  (b64_char (N.shiftl (N.land b 15) 2) =? 61) = false
  /\ N.shiftr (b64_index (b64_char (N.shiftl (N.land b 15) 2))) 2 = N.land b 15.
Proof.
  intros Hb.
  assert (H : negb (b64_char (N.shiftl (N.land b 15) 2) =? 61)
              && (N.shiftr (b64_index (b64_char (N.shiftl (N.land b 15) 2))) 2
                  =? N.land b 15) = true).
  { apply (byte_values_all (fun b =>
      negb (b64_char (N.shiftl (N.land b 15) 2) =? 61)
      && (N.shiftr (b64_index (b64_char (N.shiftl (N.land b 15) 2))) 2 =? N.land b 15)));
      [vm_compute; reflexivity | assumption]. }
  apply andb_true_iff in H. destruct H as [H1 H2].
  split; [apply negb_true_iff, H1 | apply N.eqb_eq, H2].
Qed.

Lemma b64_tail_one (a : N) :
  a <= 255 ->
  N.lor (N.shiftl (b64_index (b64_char (N.shiftr a 2))) 2)
    (N.shiftr (b64_index (b64_char (N.shiftl (N.land a 3) 4))) 4)
  = a.
Proof.
  intros Ha. apply N.eqb_eq.
  apply (byte_values_all (fun a =>
    N.lor (N.shiftl (b64_index (b64_char (N.shiftr a 2))) 2)
      (N.shiftr (b64_index (b64_char (N.shiftl (N.land a 3) 4))) 4)
    =? a)); [vm_compute; reflexivity | assumption].
Qed.

(** Reading back what was encoded gives the bytes that were encoded. *)
Lemma b64_ungroups_groups (l : list N) :
  Forall (fun n => n <= 255) l -> b64_ungroups (b64_groups l) = l.
Proof.
  induction l as [|a|a b|a b c r IH] using list_ind3.
  - reflexivity.
  - intros Hl. apply Forall_cons in Hl as [Ha _].
    cbn [b64_groups b64_ungroups]. change (61 =? 61) with true. cbv iota.
    rewrite (b64_tail_one a Ha). reflexivity.
  - intros Hl. apply Forall_cons in Hl as [Ha Hl]. apply Forall_cons in Hl as [Hb _].
    cbn [b64_groups b64_ungroups].
    destruct (b64_tail_two b Hb) as [Hpad Hlow]. rewrite Hpad.
    change (61 =? 61) with true. cbv iota.
    rewrite (b64_group_first a b Ha Hb), (b64_group_second_high a b Ha Hb), Hlow,
      (b64_nibbles b Hb).
    reflexivity.
  - intros Hl. apply Forall_cons in Hl as [Ha Hl]. apply Forall_cons in Hl as [Hb Hl].
    apply Forall_cons in Hl as [Hc Hl].
    cbn [b64_groups b64_ungroups].
    destruct (b64_group_no_padding b c Hb Hc) as [Hp3 Hp4]. rewrite Hp3, Hp4.
    rewrite (b64_group_first a b Ha Hb), (b64_group_second_high a b Ha Hb),
      (b64_group_second_low b c Hb Hc), (b64_nibbles b Hb), (b64_group_third b c Hb Hc),
      (IH Hl).
    reflexivity.
Qed.

Lemma bytes_to_N_injective (d1 d2 : bytes) :
  map Byte.to_N d1 = map Byte.to_N d2 -> d1 = d2.
Proof.
  revert d2. induction d1 as [|a r IH]; intros [|b t]; simpl; try discriminate.
  - reflexivity.
  - intros [= Hab Hrt]. f_equal; [|apply IH, Hrt].
    assert (H : Byte.of_N (Byte.to_N a) = Byte.of_N (Byte.to_N b)) by (rewrite Hab; reflexivity).
    rewrite !Byte.of_to_N in H. congruence.
Qed.

(** X14. Base64 loses nothing: two sequences of bytes with the same
    encoding are the same sequence, so the [audio_data] of an answer
    determines the audio that was synthesized. *)
Theorem b64encode_injective (d1 d2 : bytes) :
  b64encode d1 = b64encode d2 -> d1 = d2.
Proof.
  unfold b64encode. intros H. apply bytes_to_N_injective.
  assert (Hb : forall d : bytes, Forall (fun n => n <= 255) (map Byte.to_N d)).
  { intros d. apply Forall_forall. intros n Hn. apply list_elem_of_In in Hn.
    apply in_map_iff in Hn as (x & <- & _).
    apply Byte.to_N_bounded. }
  rewrite <- (b64_ungroups_groups _ (Hb d1)), <- (b64_ungroups_groups _ (Hb d2)), H.
  reflexivity.
Qed.

Lemma b64encode_injective_witness :
  [Byte.x49; Byte.x44; Byte.x33; Byte.x04] = [Byte.x49; Byte.x44; Byte.x33; Byte.x04].
Proof.
  exact (b64encode_injective [Byte.x49; Byte.x44; Byte.x33; Byte.x04]
           [Byte.x49; Byte.x44; Byte.x33; Byte.x04] eq_refl).
Defined.

Lemma b64_char_in_alphabet (a b : N) :
  a <= 255 -> b <= 255 ->
  In (b64_char (N.shiftr a 2)) b64_alphabet
  /\ In (b64_char (N.lor (N.shiftl (N.land a 3) 4) (N.shiftr b 4))) b64_alphabet
  /\ In (b64_char (N.lor (N.shiftl (N.land a 15) 2) (N.shiftr b 6))) b64_alphabet
  /\ In (b64_char (N.land a 63)) b64_alphabet
  /\ In (b64_char (N.shiftl (N.land a 3) 4)) b64_alphabet
  /\ In (b64_char (N.shiftl (N.land a 15) 2)) b64_alphabet.
Proof.
  intros Ha Hb.
  pose (mem := fun c => existsb (N.eqb c) b64_alphabet).
  assert (Hmem : forall c, mem c = true -> In c b64_alphabet).
  { intros c Hc. apply existsb_exists in Hc as (x & Hx & Hcx).
    apply N.eqb_eq in Hcx. subst x. exact Hx. }
  assert (H : mem (b64_char (N.shiftr a 2))
              && mem (b64_char (N.lor (N.shiftl (N.land a 3) 4) (N.shiftr b 4)))
              && mem (b64_char (N.lor (N.shiftl (N.land a 15) 2) (N.shiftr b 6)))
              && mem (b64_char (N.land a 63))
              && mem (b64_char (N.shiftl (N.land a 3) 4))
              && mem (b64_char (N.shiftl (N.land a 15) 2)) = true).
  { apply (byte_values_pairs (fun a b =>
      mem (b64_char (N.shiftr a 2))
      && mem (b64_char (N.lor (N.shiftl (N.land a 3) 4) (N.shiftr b 4)))
      && mem (b64_char (N.lor (N.shiftl (N.land a 15) 2) (N.shiftr b 6)))
      && mem (b64_char (N.land a 63))
      && mem (b64_char (N.shiftl (N.land a 3) 4))
      && mem (b64_char (N.shiftl (N.land a 15) 2))));
      [vm_compute; reflexivity | assumption | assumption]. }
  repeat (apply andb_true_iff in H as [H ?]).
  repeat split; apply Hmem; assumption.
Qed.

Ltac shape_done :=
  repeat (constructor; [first [left; assumption | right; reflexivity]|]);
  try exact (List.Forall_nil _).

(** The shape of an encoding: four characters for every three bytes begun,
    each of them a character of the alphabet or the padding. *)
Lemma b64_groups_shape (l : list N) :
  Forall (fun n => n <= 255) l ->
  length (b64_groups l) = (4 * ((length l + 2) / 3))%nat
  /\ Forall (fun c => In c b64_alphabet \/ c = 61) (b64_groups l).
Proof.
  induction l as [|a|a b|a b c r IH] using list_ind3.
  - intros _. split; [reflexivity | constructor].
  - intros Hl. apply Forall_cons in Hl as [Ha _].
    destruct (b64_char_in_alphabet a a Ha Ha) as (H1 & _ & _ & _ & H5 & _).
    split; [reflexivity|]. cbn [b64_groups]. shape_done.
  - intros Hl. apply Forall_cons in Hl as [Ha Hl]. apply Forall_cons in Hl as [Hb _].
    destruct (b64_char_in_alphabet a b Ha Hb) as (H1 & H2 & _).
    destruct (b64_char_in_alphabet b b Hb Hb) as (_ & _ & _ & _ & _ & H6).
    split; [reflexivity|]. cbn [b64_groups]. shape_done.
  - intros Hl. apply Forall_cons in Hl as [Ha Hl]. apply Forall_cons in Hl as [Hb Hl].
    apply Forall_cons in Hl as [Hc Hl]. destruct (IH Hl) as [IHlen IHall].
    destruct (b64_char_in_alphabet a b Ha Hb) as (H1 & H2 & _).
    destruct (b64_char_in_alphabet b c Hb Hc) as (_ & _ & H3 & _).
    destruct (b64_char_in_alphabet c c Hc Hc) as (_ & _ & _ & H4 & _).
    cbn [b64_groups]. split.
    + cbn [length]. rewrite IHlen.
      replace (S (S (S (length r))) + 2)%nat with (1 * 3 + (length r + 2))%nat by lia.
      rewrite Nat.div_add_l by lia. lia.
    + shape_done. exact IHall.
Qed.

(** X15. In a 200 answer of [/api/text-to-speech], [audio_data] is a text
    of base64: four characters for every three bytes of audio begun, each a
    character of the base64 alphabet or the padding [=]. *)
Theorem audio_data_is_base64_text (E : Env) (w : world) (r : TTSRequest.t) :
  status_code (fst (app E (POST_api_text_to_speech r) w)) = 200 ->
  exists data audio_data,
    gTTS_save E (strip (TTSRequest.text r)) (TTSRequest.target_lang r) false = Ret data
    /\ field "audio_data" (body (fst (app E (POST_api_text_to_speech r) w)))
       = Some (JStr audio_data)
    /\ length audio_data = (4 * ((length data + 2) / 3))%nat
    /\ Forall (fun c => In c b64_alphabet \/ c = 61) audio_data.
Proof.
  simpl. unfold endpoint. rewrite text_to_speech_fst.
  unfold text_to_speech_outcome, after_io.
  destruct (truthy (strip (TTSRequest.text r))); [|discriminate].
  destruct (gTTS_init E _ _ _); [discriminate|].
  destruct (io_error E OpNamedTemporaryFile); [discriminate|].
  destruct (gTTS_save E _ _ _) as [data|e]; [|discriminate].
  destruct (io_error E OpOpenRead); [discriminate|].
  destruct (io_error E OpUnlink); [discriminate|].
  intros _. exists data, (b64encode data).
  split; [reflexivity|]. split; [reflexivity|].
  unfold b64encode. rewrite <- (length_map Byte.to_N data).
  apply b64_groups_shape. apply Forall_forall. intros n Hn.
  apply list_elem_of_In in Hn. apply in_map_iff in Hn as (x & <- & _).
  apply Byte.to_N_bounded.
Qed.

Lemma audio_data_is_base64_text_witness :
  exists data audio_data,
    gTTS_save env_ok (lit "Hello") (lit "hi") false = Ret data
    /\ field "audio_data"
         (body (fst (app env_ok
                       (POST_api_text_to_speech (TTSRequest.mk (lit "Hello") (lit "hi")))
                       init_world)))
       = Some (JStr audio_data)
    /\ length audio_data = (4 * ((length data + 2) / 3))%nat
    /\ Forall (fun c => In c b64_alphabet \/ c = 61) audio_data.
Proof.
  exact (audio_data_is_base64_text env_ok init_world
           (TTSRequest.mk (lit "Hello") (lit "hi")) eq_refl).
Defined.

(** ** Failures in a row *)

Lemma serve_cons_world (E : Env) (rq : request) (rest : list (Env * request)) (w : world) :
  snd (serve ((E, rq) :: rest) w) = snd (serve rest (snd (app E rq w))).
Proof.
  simpl. destruct (app E rq w) as [resp w1]. simpl.
  destruct (serve rest w1) as [resps w2]. reflexivity.
Qed.

(** X16. Temporary files pile up: after a run of requests to
    [/api/speech-to-text] whose recognition fails, the disk holds one more
    file for each of them. *)
Theorem failed_recognitions_pile_up (rqs : list (Env * request)) (w : world) :
  Forall fails_at_recognition rqs ->
  size (fs (snd (serve rqs w))) = (size (fs w) + length rqs)%nat.
Proof.
  revert w. induction rqs as [|[E rq] rest IH]; intros w Hall.
  - simpl. lia.
  - apply Forall_cons in Hall as [Hfail Hrest].
    rewrite serve_cons_world, (IH _ Hrest).
    destruct rq as [| | |r|audio s|r]; try contradiction.
    destruct Hfail as (a & e & Hload & Hrec). simpl in Hload, Hrec.
    simpl. rewrite speech_to_text_snd,
      (speech_to_text_try_recognize_raises E w audio s a e Hload Hrec).
    simpl. rewrite map_size_insert_None by apply next_temp_fresh. lia.
Qed.

Lemma failed_recognitions_pile_up_witness :
  size (fs (snd (serve
                   [ (env_silence, POST_api_speech_to_text [Byte.x00] (lit "hi"));
                     (env_offline, POST_api_speech_to_text [Byte.x52] (lit "ta"));
                     (env_silence, POST_api_speech_to_text [] (lit "bn")) ]
                   init_world)))
  = (size (fs init_world) + 3)%nat.
Proof.
  apply (failed_recognitions_pile_up
           [ (env_silence, POST_api_speech_to_text [Byte.x00] (lit "hi"));
             (env_offline, POST_api_speech_to_text [Byte.x52] (lit "ta"));
             (env_silence, POST_api_speech_to_text [] (lit "bn")) ]
           init_world).
  repeat constructor; simpl; eexists; eexists; (split; [repeat split|reflexivity]).
Defined.

(** ** What a failure leaves and says *)

(** X17. When recognition, or detection after it, fails, the file left on
    disk holds the upload itself, byte for byte, under the suffix [.wav]. *)
Theorem failed_recognition_leaves_the_upload
  (E : Env) (w : world) (audio : bytes) (s : pystr) (a : AudioData) :
  audio_loaded E audio a ->
  (forall e, recognize_google E a (s ++ lit "-IN") = Raise e ->
             fs (snd (app E (POST_api_speech_to_text audio s) w)) !! next_temp w
             = Some (mkfile (lit ".wav") audio))
  /\ (forall text e,
         recognize_google E a (s ++ lit "-IN") = Ret text ->
         text <> [] ->
         detect E text = Raise e ->
         fs (snd (app E (POST_api_speech_to_text audio s) w)) !! next_temp w
         = Some (mkfile (lit ".wav") audio)).
Proof.
  intros Hload. split.
  - intros e Hrec. simpl.
    rewrite speech_to_text_snd,
      (speech_to_text_try_recognize_raises E w audio s a e Hload Hrec).
    apply lookup_insert_eq.
  - intros text e Hrec Hne Hdet. simpl.
    rewrite speech_to_text_snd,
      (speech_to_text_try_detect_raises E w audio s a text e Hload Hrec Hne Hdet).
    apply lookup_insert_eq.
Qed.

Lemma failed_recognition_leaves_the_upload_witness :
  fs (snd (app env_silence (POST_api_speech_to_text [Byte.x52; Byte.x49] (lit "hi"))
             init_world)) !! next_temp init_world
  = Some (mkfile (lit ".wav") [Byte.x52; Byte.x49]).
Proof.
  exact (proj1 (failed_recognition_leaves_the_upload env_silence init_world
                  [Byte.x52; Byte.x49] (lit "hi") [Byte.x52; Byte.x49]
                  ltac:(repeat split))
           _ eq_refl).
Defined.

(** X18. A synthesizer that refuses its arguments (an unsupported language
    code, say) is answered 500 with its message after "Text-to-speech
    failed: ", before any file is created and without asking for audio; a
    synthesizer that fails while saving is answered in the same way, with
    its own message. *)
Theorem synthesis_failure_detail (E : Env) (w : world) (r : TTSRequest.t) :
  strip (TTSRequest.text r) <> [] ->
  (forall e,
      gTTS_init E (strip (TTSRequest.text r)) (TTSRequest.target_lang r) false = Some e ->
      fst (app E (POST_api_text_to_speech r) w)
        = mkresponse 500 (detail_body (lit "Text-to-speech failed: " ++ str_exn E e))
      /\ fs (snd (app E (POST_api_text_to_speech r) w)) = fs w
      /\ new_calls w (snd (app E (POST_api_text_to_speech r) w))
         = [CallGTTS (strip (TTSRequest.text r)) (TTSRequest.target_lang r) false])
  /\ (forall e,
      gTTS_init E (strip (TTSRequest.text r)) (TTSRequest.target_lang r) false = None ->
      io_error E OpNamedTemporaryFile = None ->
      gTTS_save E (strip (TTSRequest.text r)) (TTSRequest.target_lang r) false = Raise e ->
      fst (app E (POST_api_text_to_speech r) w)
        = mkresponse 500 (detail_body (lit "Text-to-speech failed: " ++ str_exn E e))).
Proof.
  intros Hne. apply truthy_true in Hne. split.
  - intros e Hinit. split; [|split].
    + simpl. unfold endpoint. rewrite text_to_speech_fst.
      unfold text_to_speech_outcome. rewrite Hne, Hinit. reflexivity.
    + simpl. rewrite text_to_speech_snd. unfold_handlers.
      rewrite Hne. simpl. rewrite Hinit. reflexivity.
    + apply new_calls_app. simpl.
      rewrite text_to_speech_snd, text_to_speech_try_trace, Hne, Hinit. reflexivity.
  - intros e Hinit Htmp Hsave. simpl. unfold endpoint. rewrite text_to_speech_fst.
    unfold text_to_speech_outcome, after_io. rewrite Hne, Hinit, Htmp, Hsave.
    reflexivity.
Qed.

Lemma synthesis_failure_detail_witness :
  fst (app env_tts_down (POST_api_text_to_speech (TTSRequest.mk (lit "Hello") (lit "hi")))
         init_world)
  = mkresponse 500 (detail_body (lit "Text-to-speech failed: Failed to connect")).
Proof.
  exact (proj2 (synthesis_failure_detail env_tts_down init_world
                  (TTSRequest.mk (lit "Hello") (lit "hi")) ltac:(vm_compute; discriminate))
           _ eq_refl eq_refl eq_refl).
Defined.
